(** * The merge-and-track subsystem of the analysis directory

    A shallow embedding of [client/filesystem.py] and of
    [tools/generate_taint_models/generator_specifications.py].

    Python [str] values are [string]s, Python exceptions are the values of
    [exn], a Python [dict] is an insertion-ordered association list
    ([PyDict]), a Python [set] of strings is a [gset string] together with
    the iteration order the interpreter gives it.  Everything the module
    asks of the operating system goes through the record [OS]; the code
    itself is written in a state-and-exception monad over the state of
    that operating system and the log. *)

From Stdlib Require Import ZArith Ascii String List Sorting.Sorted Permutation.
From stdpp Require Import base option list gmap sets strings sorting.

Local Open Scope string_scope.
Local Open Scope list_scope.

(** ** Python strings *)

Module PyStr.

(** [s.startswith(p)] *)
Definition startswith (s p : string) : bool := String.prefix p s.

(** [s.endswith(p)]: [p] is [s] or ends the tail of [s]. *)
Fixpoint endswith (s p : string) : bool :=
  String.eqb s p ||
  match s with
  | EmptyString => false
  | String _ r => endswith r p
  end.

Definition is_empty_str (s : string) : bool :=
  match s with EmptyString => true | _ => false end.

(** [s.rstrip(c)] for a one-character argument [c]. *)
Fixpoint rstrip_char (c : ascii) (s : string) : string :=
  match s with
  | EmptyString => EmptyString
  | String a r =>
      let r' := rstrip_char c r in
      if is_empty_str r' && Ascii.eqb a c then EmptyString else String a r'
  end.

(** The ASCII characters for which [str.isspace] holds. *)
Definition is_space (a : ascii) : bool :=
  let n := nat_of_ascii a in
  ((9 <=? n)%nat && (n <=? 13)%nat) || ((28 <=? n)%nat && (n <=? 32)%nat).

Fixpoint lstrip (s : string) : string :=
  match s with
  | EmptyString => EmptyString
  | String a r => if is_space a then lstrip r else s
  end.

Fixpoint rstrip (s : string) : string :=
  match s with
  | EmptyString => EmptyString
  | String a r =>
      let r' := rstrip r in
      if is_empty_str r' && is_space a then EmptyString else String a r'
  end.

(** [s.strip()] *)
Definition strip (s : string) : string := rstrip (lstrip s).

(** [s.split(c)] for a one-character separator: never the empty list. *)
Fixpoint split (c : ascii) (s : string) : list string :=
  match s with
  | EmptyString => [EmptyString]
  | String a r =>
      if Ascii.eqb a c then EmptyString :: split c r
      else match split c r with
           | h :: t => String a h :: t
           | [] => [String a EmptyString]
           end
  end.

(** [sep.join(l)] *)
Fixpoint join_with (sep : string) (l : list string) : string :=
  match l with
  | [] => EmptyString
  | [x] => x
  | x :: r => x +:+ sep +:+ join_with sep r
  end.

End PyStr.

(** ** [posixpath]: the pure path arithmetic of the standard library *)

Module PosixPath.
Import PyStr.

Definition sep : string := "/".
Definition sep_char : ascii := "/"%char.

Definition isabs (p : string) : bool := startswith p sep.

(** [os.path.join(a, b)] *)
Definition join (a b : string) : string :=
  if startswith b sep then b
  else if is_empty_str a || endswith a sep then a +:+ b
  else a +:+ sep +:+ b.

(** [os.path.join(a, *p)] *)
Definition join_all (a : string) (p : list string) : string :=
  fold_left join p a.

(** The component loop of [normpath]; [acc] is [new_comps] reversed. *)
Fixpoint norm_comps (initial_slashes : bool) (comps acc : list string)
  : list string :=
  match comps with
  | [] => rev acc
  | comp :: rest =>
      if String.eqb comp "" || String.eqb comp "." then
        norm_comps initial_slashes rest acc
      else if negb (String.eqb comp "..") then
        norm_comps initial_slashes rest (comp :: acc)
      else
        match acc with
        | [] =>
            if initial_slashes then norm_comps initial_slashes rest acc
            else norm_comps initial_slashes rest (comp :: acc)
        | last :: acc' =>
            if String.eqb last ".." then
              norm_comps initial_slashes rest (comp :: acc)
            else norm_comps initial_slashes rest acc'
        end
  end.

(** [os.path.normpath]: POSIX keeps exactly two leading slashes. *)
Definition normpath (path : string) : string :=
  if is_empty_str path then "." else
  let initial_slashes : nat :=
    if startswith path sep then
      if startswith path "//" && negb (startswith path "///") then 2 else 1
    else 0 in
  let comps :=
    norm_comps (negb (Nat.eqb initial_slashes 0)) (split sep_char path) [] in
  let path' := join_with sep comps in
  let path' :=
    match initial_slashes with
    | 0 => path'
    | 1 => sep +:+ path'
    | _ => sep +:+ sep +:+ path'
    end in
  if is_empty_str path' then "." else path'.

(** [os.path.abspath], given the result of [os.getcwd()]. *)
Definition abspath (cwd path : string) : string :=
  if isabs path then normpath path else normpath (join cwd path).

(** [p[:p.rfind('/') + 1]] *)
Fixpoint head_upto_sep (p : string) : string :=
  match p with
  | EmptyString => EmptyString
  | String a r =>
      let h := head_upto_sep r in
      if negb (is_empty_str h) then String a h
      else if Ascii.eqb a sep_char then sep else EmptyString
  end.

(** [os.path.dirname] *)
Definition dirname (p : string) : string :=
  let head := head_upto_sep p in
  if is_empty_str (rstrip_char sep_char head) then head
  else rstrip_char sep_char head.

Fixpoint common_prefix_len (l1 l2 : list string) : nat :=
  match l1, l2 with
  | x :: r1, y :: r2 =>
      if String.eqb x y then S (common_prefix_len r1 r2) else 0
  | _, _ => 0
  end.

Definition nonempty_comps (p : string) : list string :=
  filter (λ x, x ≠ "") (split sep_char p).

(** [os.path.relpath(path, start)]; [None] is its [ValueError] on the
    empty path. *)
Definition relpath (cwd path start : string) : option string :=
  if is_empty_str path then None else
  let start_list := nonempty_comps (abspath cwd start) in
  let path_list := nonempty_comps (abspath cwd path) in
  let i := common_prefix_len start_list path_list in
  let rel_list :=
    replicate (length start_list - i) ".." ++ drop i path_list in
  match rel_list with
  | [] => Some "."
  | x :: r => Some (join_all x r)
  end.

End PosixPath.

(** ** Exceptions and results *)

Inductive errno : Set :=
  ENOENT | EEXIST | ENOTDIR | EISDIR | ENOTEMPTY | EACCES | EAGAIN | EINVAL.

(** The exceptions the module raises or handles.  Python's
    [FileNotFoundError] is the [OSError] whose errno is [ENOENT]; the
    string is what [str(error)] gives. *)
Inductive exn : Set :=
  | OSError (e : errno) (message : string)
  | CalledProcessError (message : string)
  | ValueError (message : string)
  | TypeError (message : string)
  | RuntimeError (message : string)
  | EnvironmentException (message : string).

Definition str_exn (e : exn) : string :=
  match e with
  | OSError _ m | CalledProcessError m | ValueError m | TypeError m
  | RuntimeError m | EnvironmentException m => m
  end.

Definition is_OSError (e : exn) : bool :=
  match e with OSError _ _ => true | _ => false end.

Definition is_FileNotFoundError (e : exn) : bool :=
  match e with OSError ENOENT _ => true | _ => false end.

Definition is_CalledProcessError (e : exn) : bool :=
  match e with CalledProcessError _ => true | _ => false end.

(** [except Exception] *)
Definition is_Exception (e : exn) : bool := true.

Definition result (A : Type) : Type := exn + A.

#[global] Instance result_ret : MRet result := λ A x, inr x.
#[global] Instance result_bind : MBind result := λ A B f r,
  match r with inl e => inl e | inr x => f x end.

(** ** Python dictionaries from [str] to [str], in insertion order *)

Module PyDict.

Definition dict : Type := list (string * string).

(** [d.get(k)]; [k in d] is [is_Some] of it. *)
Fixpoint get (d : dict) (k : string) : option string :=
  match d with
  | [] => None
  | (k', v) :: r => if String.eqb k' k then Some v else get r k
  end.

Definition contains (d : dict) (k : string) : bool :=
  match get d k with Some _ => true | None => false end.

(** [d[k] = v]: an existing key keeps its place, a new one goes last. *)
Fixpoint set (d : dict) (k v : string) : dict :=
  match d with
  | [] => [(k, v)]
  | (k', v') :: r =>
      if String.eqb k' k then (k', v) :: r else (k', v') :: set r k v
  end.

(** [d.items()] *)
Definition items (d : dict) : list (string * string) := d.

End PyDict.

Abbreviation dict := PyDict.dict.

(** ** The operating system, as far as the module uses it *)

Inductive lock_command : Set := LOCK_EX | LOCK_EX_NB | LOCK_UN.

(** [W] is the state of the file system and of the other processes.
    Queries read it; commands change it and may fail.  [check_output]
    is [subprocess.check_output(argv).decode("utf-8")];
    [generate_source_directories] is the build-target resolver of the
    [buck] module; [set_order] is the order in which the interpreter
    iterates over a set of strings. *)
Record OS (W : Type) : Type := {
  getcwd : string;
  getpid : string;
  set_order : gset string → list string;
  set_order_perm : ∀ s, set_order s ≡ₚ elements s;
  check_output : W → list string → result string;
  path_exists : W → string → bool;
  path_isfile : W → string → bool;
  path_realpath : W → string → string;
  stat_size : W → string → result Z;
  listdir : W → string → result (list string);
  remove : string → W → result unit * W;
  rmtree : string → W → result unit * W;
  makedirs : string → W → result unit * W;
  symlink : string → string → W → result unit * W;
  unlink : string → W → result unit * W;
  open_w : string → W → result Z * W;
  lockf : Z → lock_command → W → result unit * W;
  close : Z → W → W;
  generate_source_directories :
    gset string → bool → bool → W → result (gset string) * W;
}.

Arguments getcwd {W} _.
Arguments getpid {W} _.
Arguments set_order {W} _ _.
Arguments set_order_perm {W} _ _.
Arguments check_output {W} _ _ _.
Arguments path_exists {W} _ _ _.
Arguments path_isfile {W} _ _ _.
Arguments path_realpath {W} _ _ _.
Arguments stat_size {W} _ _ _.
Arguments listdir {W} _ _ _.
Arguments remove {W} _ _ _.
Arguments rmtree {W} _ _ _.
Arguments makedirs {W} _ _ _.
Arguments symlink {W} _ _ _ _.
Arguments unlink {W} _ _ _.
Arguments open_w {W} _ _ _.
Arguments lockf {W} _ _ _ _.
Arguments close {W} _ _ _.
Arguments generate_source_directories {W} _ _ _ _ _.

(** ** The monad of the stateful code *)

Inductive log_level : Set := INFO | WARNING | ERROR | PERFORMANCE.

(** The state of a run: the operating system's and the records written
    to [LOG]. *)
Record process (W : Type) : Type := Process {
  world : W;
  logged : list (log_level * string);
}.

Arguments Process {W} _ _.
Arguments world {W} _.
Arguments logged {W} _.

Definition M (W A : Type) : Type := process W → result A * process W.

#[global] Instance M_ret {W} : MRet (M W) := λ A x s, (inr x, s).
#[global] Instance M_bind {W} : MBind (M W) := λ A B f c s,
  match c s with
  | (inl e, s') => (inl e, s')
  | (inr x, s') => f x s'
  end.

Definition raise {W A} (e : exn) : M W A := λ s, (inl e, s).

(** [try: c  except <handles>: h] *)
Definition try_except {W A} (c : M W A) (handles : exn → bool)
    (h : exn → M W A) : M W A := λ s,
  match c s with
  | (inl e, s') => if handles e then h e s' else (inl e, s')
  | (inr x, s') => (inr x, s')
  end.

(** A query of the current state that may raise. *)
Definition query {W A} (q : W → result A) : M W A := λ s, (q (world s), s).

(** A command of the operating system. *)
Definition command {W A} (c : W → result A * W) : M W A := λ s,
  let '(r, w) := c (world s) in (r, Process w (logged s)).

Definition LOG {W} (level : log_level) (message : string) : M W unit := λ s,
  (inr tt, Process (world s) (logged s ++ [(level, message)])).

(** [for x in l: body x] *)
Fixpoint for_each {W A} (l : list A) (body : A → M W unit) : M W unit :=
  match l with
  | [] => mret tt
  | x :: r => body x ;; for_each r body
  end.

(** ** [client/filesystem.py] *)

Section Filesystem.
Context {W : Type} (os : OS W).

Import PyStr PosixPath.

Definition translate_path (w : W) (root path : string) : string :=
  if isabs path then path
  else
    let translated := join root path in
    if path_exists os w translated then path_realpath os w translated
    else path.

(** [os.path.relpath] with the process's working directory, raising. *)
Definition os_relpath (path start : string) : result string :=
  match relpath (getcwd os) path start with
  | Some r => inr r
  | None => inl (ValueError "no path specified")
  end.

Definition translate_paths (w : W) (paths : gset string)
    (original_directory : string) : result (gset string) :=
  let current_directory := getcwd os in
  if negb (startswith original_directory current_directory) then mret paths
  else
    translation ← os_relpath original_directory current_directory;
    if is_empty_str translation then mret paths
    else mret (set_map (translate_path w translation) paths).

(** The [while] loop of [find_root]; [None] when [fuel] iterations did
    not end it. *)
Fixpoint find_root_loop (fuel : nat) (w : W)
    (current_directory target_file : string) : option (option string) :=
  match fuel with
  | O => None
  | S fuel' =>
      if String.eqb current_directory "/" then Some None
      else
        let absolute := join current_directory target_file in
        if path_isfile os w absolute then Some (Some current_directory)
        else find_root_loop fuel' w (dirname current_directory) target_file
  end.

Definition find_root (fuel : nat) (w : W)
    (original_directory target_file : string) : option (option string) :=
  let current_directory := abspath (getcwd os) original_directory in
  find_root_loop fuel w current_directory target_file.

Definition exists_ (w : W) (path : string) : result string :=
  if negb (path_isfile os w path) then
    inl (ValueError (path +:+ " is not a valid file"))
  else inr path.

(** *** [AnalysisDirectory] *)

(** The fields [_path], [_filter_paths] and [_search_path] of the base
    class; the subclass below sets the last two itself, under the names
    the source gives them. *)
Record AnalysisDirectory : Type := {
  base_path : string;
  base_filter_paths : list string;
  base_search_path : list string;
}.

(** The tracked directories of a directory rooted at [root]; the class
    computes them once from [get_root()] and keeps them. *)
Definition tracked_directories_of (root : string) (search_path : list string)
    : list string :=
  let tracked_directories :=
    root ::
    map (λ path,
           match split "$"%char path with
           | a :: p => join_all a p
           | [] => path
           end) search_path in
  map (abspath (getcwd os)) tracked_directories.

Definition is_tracked_in (directories : list string) (path : string) : bool :=
  existsb
    (λ directory, startswith path (rstrip_char sep_char directory +:+ sep))
    directories.

Definition AnalysisDirectory_get_root (self : AnalysisDirectory) : string :=
  base_path self.

Definition AnalysisDirectory_get_filter_root (self : AnalysisDirectory)
    : list string :=
  match base_filter_paths self with
  | [] => [AnalysisDirectory_get_root self]
  | filter_paths => filter_paths
  end.

Definition AnalysisDirectory_tracked_directories (self : AnalysisDirectory)
    : list string :=
  tracked_directories_of (AnalysisDirectory_get_root self)
    (base_search_path self).

Definition AnalysisDirectory_is_tracked (self : AnalysisDirectory)
    (path : string) : bool :=
  is_tracked_in (AnalysisDirectory_tracked_directories self) path.

Definition AnalysisDirectory_process_updated_files (self : AnalysisDirectory)
    (paths : list string) : list string :=
  List.filter (AnalysisDirectory_is_tracked self) paths.

(** *** Module-level helpers *)

Definition find_paths_with_extensions (w : W) (root : string)
    (extensions : list string) : result (list string) :=
  let root := abspath (getcwd os) root in
  let extension_filter :=
    fold_left
      (λ extension_filter extension,
         (if (0 <? length extension_filter)%nat
          then extension_filter ++ ["-or"] else extension_filter)
         ++ ["-name"; "*." +:+ extension])
      extensions [] in
  output ←
    check_output os w
      (["find"; root; "("] ++ extension_filter ++
       [")"; "("; "-type"; "f"; "-or"; "-type"; "l"; ")"; "-print"]);
  mret (split "010"%char (strip output)).

Definition _find_python_paths (w : W) (root : string)
    : result (list string) :=
  match find_paths_with_extensions w root ["py"; "pyi"] with
  | inl e =>
      if is_CalledProcessError e then
        inl (EnvironmentException
               ("Pyre was unable to locate an analysis directory. " +:+
                "Ensure that your project is built and re-run pyre."))
      else inl e
  | inr paths => inr paths
  end.

Definition is_empty (w : W) (path : string) : result bool :=
  match stat_size os w path with
  | inr st_size => inr (st_size =? 0)%Z
  | inl e => if is_FileNotFoundError e then inr false else inl e
  end.

Definition remove_if_exists (path : string) : M W unit :=
  try_except (command (remove os path)) is_OSError (λ _, mret tt) ;;
  try_except (command (rmtree os path)) is_OSError (λ _, mret tt).

(** Only [find_paths_with_extensions] can raise inside the [try], and it
    does so before the first assignment: the handler sees the empty
    dictionary. *)
Definition _compute_symbolic_link_mapping (directory : string)
    (extensions : list string) : M W dict :=
  try_except
    (links ← query (λ w, find_paths_with_extensions w directory extensions);
     w ← query (λ w, inr w);
     mret (fold_left
             (λ symbolic_links symbolic_link,
                PyDict.set symbolic_links
                  (path_realpath os w symbolic_link) symbolic_link)
             links []))
    is_CalledProcessError
    (λ error,
       LOG WARNING
         ("Exception encountered trying to find source files " +:+
          "in the analysis directory: `" +:+ str_exn error +:+ "`") ;;
       LOG WARNING "Starting with an empty set of tracked files." ;;
       mret []).

Definition _delete_symbolic_link (link_path : string) : M W unit :=
  command (unlink os link_path).

Definition _add_symbolic_link (link_path actual_path : string) : M W unit :=
  let directory := dirname link_path in
  try_except (command (makedirs os directory)) is_OSError (λ _, mret tt) ;;
  try_except (command (symlink os actual_path link_path)) is_OSError
    (λ error,
       match error with
       | OSError EEXIST _ =>
           command (unlink os link_path) ;;
           command (symlink os actual_path link_path)
       | _ => LOG ERROR (str_exn error)
       end).

(** [with acquire_lock(path, blocking): body].  An exception of the body
    is thrown into the generator at its [yield]: the lock file is closed
    and, unless it is a [FileNotFoundError], the exception goes on; a
    [FileNotFoundError] reaches the handler, whose second [yield] makes
    the context manager raise [RuntimeError]. *)
Definition acquire_lock {A} (path : string) (blocking : bool)
    (body : option Z → M W A) : M W A :=
  λ s,
    match command (open_w os path) s with
    | (inl e, s1) =>
        if is_FileNotFoundError e then body None s1 else (inl e, s1)
    | (inr lockfile, s1) =>
        let lock_command := if negb blocking then LOCK_EX_NB else LOCK_EX in
        let closed (s : process W) :=
          Process (close os lockfile (world s)) (logged s) in
        match command (lockf os lockfile lock_command) s1 with
        | (inl e, s2) =>
            if is_FileNotFoundError e then body None (closed s2)
            else (inl e, closed s2)
        | (inr _, s2) =>
            match body (Some lockfile) s2 with
            | (inl e, s3) =>
                if is_FileNotFoundError e then
                  (inl (RuntimeError "generator didn't stop after throw()"),
                   closed s3)
                else (inl e, closed s3)
            | (inr x, s3) =>
                match command (lockf os lockfile LOCK_UN) s3 with
                | (inl e, s4) =>
                    if is_FileNotFoundError e then
                      (inl (RuntimeError "generator didn't stop"), closed s4)
                    else (inl e, closed s4)
                | (inr _, s4) => (inr x, closed s4)
                end
            end
        end
    end.

(** *** [SharedAnalysisDirectory] *)

(** [root_cache] is the value [get_root] computes at its first call, in
    [__init__], and returns from then on ([functools.lru_cache]). *)
Record SharedAnalysisDirectory : Type := {
  _source_directories : gset string;
  _targets : gset string;
  _original_directory : option string;
  _filter_paths : list string;
  _local_configuration_root : option string;
  _search_path : list string;
  _isolate : bool;
  _build : bool;
  _prompt : bool;
  _symbolic_links : dict;
  root_cache : string;
}.

Definition get_scratch_directory (w : W) : string :=
  match check_output os w ["scratch"; "path"; "--subdir"; "pyre"] with
  | inr output => strip output
  | inl _ => join (getcwd os) ".pyre"
  end.

(** The body of [get_root]. *)
Definition get_root_uncached (w : W)
    (local_configuration_root : option string) (isolate : bool) : string :=
  let path_to_root :=
    match local_configuration_root with
    | Some r => if is_empty_str r then "shared_analysis_directory" else r
    | None => "shared_analysis_directory"
    end in
  let suffix := if isolate then "_" +:+ getpid os else "" in
  join (get_scratch_directory w) (path_to_root +:+ suffix).

Definition get_root (self : SharedAnalysisDirectory) : string :=
  root_cache self.

Definition or_list {A} (l : option (list A)) (default : list A) : list A :=
  match l with
  | Some (x :: r) => x :: r
  | _ => default
  end.

(** [SharedAnalysisDirectory.__init__] *)
Definition SharedAnalysisDirectory_init
    (source_directories targets : list string)
    (original_directory : option string)
    (filter_paths : option (list string))
    (local_configuration_root : option string)
    (extensions search_path : option (list string))
    (isolate build prompt : bool) : M W SharedAnalysisDirectory :=
  w ← query (λ w, inr w);
  let root := get_root_uncached w local_configuration_root isolate in
  symbolic_links ←
    _compute_symbolic_link_mapping root (or_list extensions ["py"; "pyi"]);
  mret {| _source_directories := list_to_set source_directories;
          _targets := list_to_set targets;
          _original_directory := original_directory;
          _filter_paths := or_list filter_paths [];
          _local_configuration_root := local_configuration_root;
          _search_path := or_list search_path [];
          _isolate := isolate;
          _build := build;
          _prompt := prompt;
          _symbolic_links := symbolic_links;
          root_cache := root |}.

(** [self._source_directories.update(new)] *)
Definition update_source_directories (self : SharedAnalysisDirectory)
    (new : gset string) : SharedAnalysisDirectory :=
  {| _source_directories := _source_directories self ∪ new;
     _targets := _targets self;
     _original_directory := _original_directory self;
     _filter_paths := _filter_paths self;
     _local_configuration_root := _local_configuration_root self;
     _search_path := _search_path self;
     _isolate := _isolate self;
     _build := _build self;
     _prompt := _prompt self;
     _symbolic_links := _symbolic_links self;
     root_cache := root_cache self |}.

(** The method changes [self]; the changed object is its result. *)
Definition _resolve_source_directories (self : SharedAnalysisDirectory)
    : M W SharedAnalysisDirectory :=
  self ←
    (if decide (_targets self = ∅) then mret self
     else
       new_source_directories ←
         command (generate_source_directories os (_targets self)
                    (_build self) (_prompt self));
       new_source_directories ←
         match _original_directory self with
         | Some original_directory =>
             query (λ w, translate_paths w new_source_directories
                           original_directory)
         | None => mret new_source_directories
         end;
       mret (update_source_directories self new_source_directories));
  if (size (_source_directories self) =? 0)%nat then
    raise (EnvironmentException "No targets or source directories to analyze.")
  else mret self.

Definition _tracked_directories (self : SharedAnalysisDirectory)
    : list string :=
  tracked_directories_of (get_root self) (_search_path self).

Definition _is_tracked (self : SharedAnalysisDirectory) (path : string)
    : bool :=
  is_tracked_in (_tracked_directories self) path.

Definition process_updated_files (self : SharedAnalysisDirectory)
    (paths : list string) : list string :=
  fold_left
    (λ tracked_files path,
       match PyDict.get (_symbolic_links self) path with
       | Some link => tracked_files ++ [link]
       | None =>
           if _is_tracked self path then tracked_files ++ [path]
           else tracked_files
       end)
    paths [].

Definition cleanup (self : SharedAnalysisDirectory) : M W unit :=
  try_except
    (if _isolate self then command (rmtree os (get_root self)) else mret tt)
    is_Exception (λ _, mret tt).

Definition _clear (self : SharedAnalysisDirectory) : M W unit :=
  let root := get_root self in
  names ← query (λ w, listdir os w root);
  for_each names
    (λ path,
       if startswith path ".pyre" then mret tt
       else
         let path := join root path in
         remove_if_exists path).

(** [for x in l: acc = body acc x], stopping at the first exception. *)
Fixpoint for_fold {A B} (l : list A) (acc : B) (body : B → A → result B)
    : result B :=
  match l with
  | [] => inr acc
  | x :: r =>
      match body acc x with
      | inl e => inl e
      | inr acc' => for_fold r acc' body
      end
  end.

(** [try: c  except <handles>: h], for code that only reads the state. *)
Definition try_result {A} (c : result A) (handles : exn → bool)
    (h : exn → result A) : result A :=
  match c with
  | inl e => if handles e then h e else inl e
  | inr x => inr x
  end.

(** One iteration of the loop of [_merge_into_paths]; [and] evaluates
    [is_empty] only for a relative path that ends with [__init__.py]. *)
Definition _merge_into_paths_body (w : W) (source_directory : string)
    (all_paths : dict) (path : string) : result dict :=
  relative ← os_relpath path source_directory;
  if is_empty_str path then mret all_paths
  else if PyDict.contains all_paths relative then mret all_paths
  else
    try_result
      (let absolute := path_realpath os w path in
       if negb (path_isfile os w absolute) then mret all_paths
       else
         empty_marker ←
           (if endswith relative "__init__.py" then is_empty w absolute
            else mret false);
         if (empty_marker : bool) then mret all_paths
         else mret (PyDict.set all_paths relative absolute))
      is_FileNotFoundError (λ _, mret all_paths).

(** The method changes the dictionary it is given; the changed dictionary
    is its result. *)
Definition _merge_into_paths (w : W) (source_directory : string)
    (all_paths : dict) : result dict :=
  paths ← _find_python_paths w source_directory;
  for_fold paths all_paths (_merge_into_paths_body w source_directory).

(** The first loop of [_merge]: the dictionary [all_paths]. *)
Definition _merge_all_paths (w : W) (self : SharedAnalysisDirectory)
    : result dict :=
  for_fold (set_order os (_source_directories self)) []
    (λ all_paths source_directory,
       _merge_into_paths w source_directory all_paths).

Definition _merge (self : SharedAnalysisDirectory) : M W unit :=
  let root := get_root self in
  all_paths ← query (λ w, _merge_all_paths w self);
  for_each (PyDict.items all_paths)
    (λ '(relative, original),
       let merged := join root relative in
       _add_symbolic_link merged original).

(** The duration in the last log record is not modelled. *)
Definition prepare (self : SharedAnalysisDirectory)
    : M W SharedAnalysisDirectory :=
  let root := get_root self in
  LOG INFO ("Constructing shared directory `" +:+ root +:+ "`") ;;
  self ← _resolve_source_directories self;
  try_except (command (makedirs os root)) is_OSError (λ _, mret tt) ;;
  let lock := join root ".pyre.lock" in
  acquire_lock lock true
    (λ _,
       _clear self ;;
       _merge self ;;
       LOG PERFORMANCE "Merged analysis directories") ;;
  mret self.

End Filesystem.

(** *** The listers [Filesystem] and [MercurialBackedFilesystem] *)

(** The listers split text at white space, of which Unicode has more
    than ASCII: here a [str] is the sequence of its code points. *)
Definition ustr : Type := list N.

(** The [str] of a literal of the source. *)
Definition code_points (s : string) : ustr :=
  map N_of_ascii (list_ascii_of_string s).

(** The code points for which [str.isspace] holds. *)
Definition is_whitespace (c : N) : bool :=
  ((9 <=? c) && (c <=? 13) || (28 <=? c) && (c <=? 32) ||
   (c =? 133) || (c =? 160) || (c =? 5760) ||
   (8192 <=? c) && (c <=? 8202) ||
   (c =? 8232) || (c =? 8233) || (c =? 8239) || (c =? 8287) ||
   (c =? 12288))%N.

(** [s.split()]: the maximal runs of code points that are not white
    space. *)
Fixpoint split_whitespace (s : ustr) : list ustr :=
  match s with
  | [] => []
  | a :: r =>
      if is_whitespace a then split_whitespace r
      else
        match r with
        | [] => [[a]]
        | b :: _ =>
            if is_whitespace b then [a] :: split_whitespace r
            else
              match split_whitespace r with
              | word :: words => (a :: word) :: words
              | [] => [[a]]
              end
        end
  end.

Inductive Filesystem_class : Set := Filesystem | MercurialBackedFilesystem.

Section Listers.
(** [subprocess.run(argv, stdout=PIPE).stdout.decode("utf-8")]: the
    text a process prints, whatever its exit status; the call raises
    [FileNotFoundError] when there is no such executable, and
    [UnicodeDecodeError] on output that is not UTF-8. *)
Context {W : Type} (run_stdout : W → list ustr → result ustr).

Definition Filesystem_list (w : W) (root pattern : ustr)
    : result (list ustr) :=
  output ←
    run_stdout w
      [code_points "find"; root; code_points "-name";
       code_points "*" ++ pattern];
  mret (split_whitespace output).

Definition MercurialBackedFilesystem_list (w : W) (root pattern : ustr)
    : result (list ustr) :=
  try_result
    (output ←
       run_stdout w
         [code_points "hg"; code_points "files"; code_points "--include";
          code_points "**" ++ pattern];
     mret (split_whitespace output))
    is_FileNotFoundError
    (λ _, inl (EnvironmentException "hg executable not found.")).

(** [filesystem.list(root, pattern)] *)
Definition list_of (filesystem : Filesystem_class) (w : W)
    (root pattern : ustr) : result (list ustr) :=
  match filesystem with
  | Filesystem => Filesystem_list w root pattern
  | MercurialBackedFilesystem => MercurialBackedFilesystem_list w root pattern
  end.

End Listers.

(** ** [tools/generate_taint_models/generator_specifications.py] *)

Module GeneratorSpecifications.

(** A Python set of strings, by the order in which it is iterated: the
    order depends on how the set was built, and no string occurs twice. *)
Definition pyset : Type := list string.

Record AnnotationSpecification : Type := {
  arg : option string;
  vararg : option string;
  kwarg : option string;
  returns : option string;
}.

Record WhitelistSpecification : Type := {
  parameter_type : option pyset;
  parameter_name : option pyset;
}.

Record DecoratorAnnotationSpecification : Type := {
  decorator : string;
  annotations : option AnnotationSpecification;
  whitelist : option WhitelistSpecification;
}.

(** The values that are hashed. *)
#[warnings="-register-all"] Inductive value : Type :=
  | VNone
  | VStr (s : string)
  | VTuple (items : list value)
  | VSet (s : pyset).

(** [a == b] on sets: the same elements. *)
Definition set_eqb (a b : pyset) : bool :=
  forallb (λ x, bool_decide (x ∈ b)) a && forallb (λ x, bool_decide (x ∈ a)) b.

Definition field_eqb (a b : option pyset) : bool :=
  match a, b with
  | None, None => true
  | Some a, Some b => set_eqb a b
  | _, _ => false
  end.

(** The equality of the named tuple: field by field. *)
Definition WhitelistSpecification_eqb (a b : WhitelistSpecification) : bool :=
  field_eqb (parameter_type a) (parameter_type b) &&
  field_eqb (parameter_name a) (parameter_name b).

(** [sorted(s)]: strings are ordered by their characters' codes. *)
Definition sorted (s : pyset) : list string := merge_sort String.le s.

Section Hash.
(** The interpreter's [hash] on [None], on strings and on the hashes of
    the items of a tuple. *)
Context (hash_None : Z) (hash_str : string → Z) (hash_tuple : list Z → Z).

(** [hash(v)]: a set is not hashable. *)
Fixpoint py_hash (v : value) : result Z :=
  match v with
  | VNone => inr hash_None
  | VStr s => inr (hash_str s)
  | VTuple items =>
      hashes ←
        (fix go (items : list value) : result (list Z) :=
           match items with
           | [] => inr []
           | item :: rest =>
               h ← py_hash item; hashes ← go rest; inr (h :: hashes)
           end) items;
      inr (hash_tuple hashes)
  | VSet _ => inl (TypeError "unhashable type: 'set'")
  end.

(** [x and tuple(sorted(x))]: [None] and the empty set are false and are
    the value of the expression themselves. *)
Definition and_sorted (x : option pyset) : value :=
  match x with
  | None => VNone
  | Some [] => VSet []
  | Some s => VTuple (VStr <$> sorted s)
  end.

(** [WhitelistSpecification.__hash__] *)
Definition WhitelistSpecification_hash (self : WhitelistSpecification)
    : result Z :=
  let parameter_type := parameter_type self in
  let parameter_name := parameter_name self in
  py_hash (VTuple [and_sorted parameter_type; and_sorted parameter_name]).

Definition option_value (x : option string) : value :=
  match x with Some s => VStr s | None => VNone end.

(** A named tuple without [__hash__] of its own hashes as a tuple. *)
Definition AnnotationSpecification_hash (self : AnnotationSpecification)
    : result Z :=
  py_hash (VTuple [option_value (arg self); option_value (vararg self);
                   option_value (kwarg self); option_value (returns self)]).

(** [DecoratorAnnotationSpecification.__hash__] *)
Definition DecoratorAnnotationSpecification_hash
    (self : DecoratorAnnotationSpecification) : result Z :=
  d ← py_hash (VStr (decorator self));
  a ← match annotations self with
      | Some a => AnnotationSpecification_hash a
      | None => inr hash_None
      end;
  w ← match whitelist self with
      | Some w => WhitelistSpecification_hash w
      | None => inr hash_None
      end;
  inr (hash_tuple [d; a; w]).

End Hash.

(** [a == b] on [Optional[str]]. *)
Definition option_str_eqb (a b : option string) : bool :=
  match a, b with
  | Some a, Some b => String.eqb a b
  | None, None => true
  | _, _ => false
  end.

Definition AnnotationSpecification_eqb (a b : AnnotationSpecification)
    : bool :=
  option_str_eqb (arg a) (arg b) && option_str_eqb (vararg a) (vararg b) &&
  option_str_eqb (kwarg a) (kwarg b) && option_str_eqb (returns a) (returns b).

Definition DecoratorAnnotationSpecification_eqb
    (a b : DecoratorAnnotationSpecification) : bool :=
  String.eqb (decorator a) (decorator b) &&
  match annotations a, annotations b with
  | Some x, Some y => AnnotationSpecification_eqb x y
  | None, None => true
  | _, _ => false
  end &&
  match whitelist a, whitelist b with
  | Some x, Some y => WhitelistSpecification_eqb x y
  | None, None => true
  | _, _ => false
  end.

(** One of the two fields is the empty set. *)
Definition has_empty_set (w : WhitelistSpecification) : bool :=
  match parameter_type w, parameter_name w with
  | Some [], _ | _, Some [] => true
  | _, _ => false
  end.

(** The sets of a specification hold no string twice. *)
Definition proper (w : WhitelistSpecification) : Prop :=
  ∀ s, parameter_type w = Some s ∨ parameter_name w = Some s → NoDup s.

Definition default_entrypoint_taint : AnnotationSpecification :=
  {| arg := Some "TaintSource[UserControlled]";
     vararg := Some "TaintSource[UserControlled]";
     kwarg := Some "TaintSource[UserControlled]";
     returns := Some "TaintSink[ReturnedToUser]" |}.

End GeneratorSpecifications.

(** ** A file system to run the code on

    A disk maps normalized absolute paths to what is there.  The
    operations follow POSIX for such a disk and one process: no
    permissions, no other writers.  [find] is the only executable on
    the search path of executables. *)

Module Posix.
Import PyStr PosixPath.

Inductive node : Set :=
  | File (size : Z)
  | Dir
  | Link (target : string).

Abbreviation disk := (gmap string node).

(** [dir] with one separator after it. *)
Definition with_sep (dir : string) : string := join dir "".

Definition under (dir path : string) : bool := startswith path (with_sep dir).

(** The part of [path] after [prefix], if [path] starts with it. *)
Fixpoint strip_prefix (prefix path : string) : option string :=
  match prefix, path with
  | EmptyString, _ => Some path
  | String a p, String b q =>
      if Ascii.eqb a b then strip_prefix p q else None
  | String _ _, EmptyString => None
  end.

Fixpoint has_sep (s : string) : bool :=
  match s with
  | EmptyString => false
  | String a r => Ascii.eqb a sep_char || has_sep r
  end.

(** The name under which [path] is an immediate child of [dir]. *)
Definition child_name (dir path : string) : option string :=
  match strip_prefix (with_sep dir) path with
  | Some name =>
      if is_empty_str name || has_sep name then None else Some name
  | None => None
  end.

Definition children (w : disk) (dir : string) : list string :=
  omap (child_name dir) (map_to_list w).*1.

(** Symbolic links are followed component by component, at most [fuel]
    times in all. *)
Fixpoint resolve (fuel : nat) (w : disk) (current : string)
    (comps : list string) : string :=
  match fuel with
  | O => join_all current comps
  | S fuel' =>
      match comps with
      | [] => current
      | comp :: rest =>
          if String.eqb comp ".." then
            resolve fuel' w (dirname current) rest
          else
            let next := join current comp in
            match w !! next with
            | Some (Link target) =>
                resolve fuel' w (if isabs target then "/" else current)
                  (nonempty_comps (normpath target) ++ rest)
            | _ => resolve fuel' w next rest
            end
      end
  end.

Definition realpath (cwd : string) (w : disk) (path : string) : string :=
  resolve 64 w "/" (nonempty_comps (abspath cwd path)).

Definition enoent : exn := OSError ENOENT "No such file or directory".

(** The arguments that follow a [-name]. *)
Fixpoint name_patterns (argv : list string) : list string :=
  match argv with
  | [] => []
  | flag :: rest =>
      (if String.eqb flag "-name" then take 1 rest else []) ++
      name_patterns rest
  end.

(** [find root ( -name *.e1 -or ... ) ( -type f -or -type l ) -print] *)
Definition find (w : disk) (root : string) (argv : list string)
    : result string :=
  match w !! root with
  | None => inl (CalledProcessError "find returned non-zero exit status 1.")
  | Some _ =>
      let suffixes :=
        omap (strip_prefix "*") (name_patterns argv) in
      let printed (entry : string * node) : bool :=
        let '(path, n) := entry in
        (String.eqb path root || under root path) &&
        match n with Dir => false | _ => true end &&
        existsb (endswith path) suffixes in
      inr (fold_right (λ entry out, fst entry +:+ "
" +:+ out) "" (List.filter printed (map_to_list w)))
  end.

(** [find] also exits with a non-zero status on a root it may not read. *)
Definition run (unreadable : gset string) (w : disk) (argv : list string)
    : result string :=
  match argv with
  | "find" :: root :: rest =>
      if decide (root ∈ unreadable) then
        inl (CalledProcessError "find returned non-zero exit status 1.")
      else find w root rest
  | _ => inl enoent
  end.

Definition exists_path (cwd : string) (w : disk) (path : string) : bool :=
  match w !! realpath cwd w path with Some _ => true | None => false end.

Definition isfile (cwd : string) (w : disk) (path : string) : bool :=
  match w !! realpath cwd w path with Some (File _) => true | _ => false end.

Definition st_size (cwd : string) (w : disk) (path : string) : result Z :=
  match w !! realpath cwd w path with
  | Some (File size) => inr size
  | Some Dir => inr 4096%Z
  | _ => inl enoent
  end.

Definition os_listdir (cwd : string) (w : disk) (path : string)
    : result (list string) :=
  let dir := realpath cwd w path in
  match w !! dir with
  | Some Dir => inr (children w dir)
  | Some _ => inl (OSError ENOTDIR "Not a directory")
  | None => inl enoent
  end.

(** [os.remove] and [os.unlink] *)
Definition os_remove (cwd path : string) (w : disk) : result unit * disk :=
  let path := abspath cwd path in
  match w !! path with
  | Some Dir => (inl (OSError EISDIR "Is a directory"), w)
  | Some _ => (inr tt, delete path w)
  | None => (inl enoent, w)
  end.

Definition shutil_rmtree (cwd path : string) (w : disk)
    : result unit * disk :=
  let path := abspath cwd path in
  match w !! path with
  | Some Dir =>
      (inr tt,
       filter (λ entry, entry.1 ≠ path ∧ under path entry.1 = false) w)
  | Some (Link _) =>
      (inl (OSError EINVAL "Cannot call rmtree on a symbolic link"), w)
  | Some (File _) => (inl (OSError ENOTDIR "Not a directory"), w)
  | None => (inl enoent, w)
  end.

(** The proper prefixes of a path and the path itself, shortest first. *)
Definition ancestors (path : string) : list string :=
  (fix go (current : string) (comps : list string) : list string :=
     match comps with
     | [] => []
     | comp :: rest => join current comp :: go (join current comp) rest
     end) "/" (nonempty_comps path).

Definition os_makedirs (cwd path : string) (w : disk) : result unit * disk :=
  let path := abspath cwd path in
  match w !! path with
  | Some _ => (inl (OSError EEXIST "File exists"), w)
  | None =>
      fold_left
        (λ (acc : result unit * disk) dir,
           match acc with
           | (inl e, w) => (inl e, w)
           | (inr _, w) =>
               match w !! dir with
               | None => (inr tt, <[dir := Dir]> w)
               | Some (File _) =>
                   (inl (OSError ENOTDIR "Not a directory"), w)
               | Some _ => (inr tt, w)
               end
           end)
        (ancestors path) (inr tt, w)
  end.

Definition os_symlink (cwd src dst : string) (w : disk)
    : result unit * disk :=
  let dst := abspath cwd dst in
  match w !! dst with
  | Some _ => (inl (OSError EEXIST "File exists"), w)
  | None =>
      match w !! realpath cwd w (dirname dst) with
      | Some Dir => (inr tt, <[dst := Link src]> w)
      | Some _ => (inl (OSError ENOTDIR "Not a directory"), w)
      | None => (inl enoent, w)
      end
  end.

(** [open(path, "w+")]: the file is created or emptied. *)
Definition os_open_w (cwd path : string) (w : disk) : result Z * disk :=
  let path := realpath cwd w path in
  match w !! path with
  | Some Dir => (inl (OSError EISDIR "Is a directory"), w)
  | _ =>
      match w !! dirname path with
      | Some Dir => (inr 3%Z, <[path := File 0]> w)
      | Some _ => (inl (OSError ENOTDIR "Not a directory"), w)
      | None => (inl enoent, w)
      end
  end.

(** The process runs in [cwd]; the resolver answers [resolved]; the
    process may not read the directories [unreadable]. *)
Definition posix (cwd : string) (resolved unreadable : gset string)
    : OS disk := {|
  getcwd := cwd;
  getpid := "4242";
  set_order := elements;
  set_order_perm := λ s, reflexivity (elements s);
  check_output := run unreadable;
  path_exists := exists_path cwd;
  path_isfile := isfile cwd;
  path_realpath := realpath cwd;
  stat_size := st_size cwd;
  listdir := os_listdir cwd;
  remove := os_remove cwd;
  rmtree := shutil_rmtree cwd;
  makedirs := os_makedirs cwd;
  symlink := os_symlink cwd;
  unlink := os_remove cwd;
  open_w := os_open_w cwd;
  lockf := λ _ _ w, (inr tt, w);
  close := λ _ w, w;
  generate_source_directories := λ _ _ _ w, (inr resolved, w);
|}.

(** *** What clearing leaves of a disk *)

Definition is_dir (w : disk) (path : string) : bool :=
  match w !! path with Some Dir => true | _ => false end.

(** What is left once [path] and, if it is a directory, everything under
    it are gone. *)
Definition purge (path : string) (w : disk) : disk :=
  filter
    (λ entry, entry.1 ≠ path ∧ is_dir w path && under path entry.1 = false)
    w.

(** [path] is the child [name] of [root], or lies under it, and [name]
    is not reserved. *)
Definition hit (w : disk) (root path name : string) : bool :=
  negb (startswith name ".pyre") &&
  (String.eqb path (join root name) ||
   is_dir w (join root name) && under (join root name) path).

Definition cleared (w : disk) (root path : string) : bool :=
  existsb (hit w root path) (children w root).

Definition clear_disk (w : disk) (root : string) : disk :=
  filter (λ entry, cleared w root entry.1 = false) w.

(** A name that [listdir] gives for [root]: the path it joins to is a
    key of the disk, written as the disk writes it. *)
Definition child_ok (cwd root name : string) : Prop :=
  name ≠ "" ∧ has_sep name = false ∧
  abspath cwd (with_sep root +:+ name) = with_sep root +:+ name.

End Posix.

(** ** Notions used to state the properties *)

Section MergeNotions.
Context {W : Type} (os : OS W) (w : W).
Import PyStr PosixPath.

(** What the File Lister gives for a source directory, nothing if it
    fails. *)
Definition listing (source_directory : string) : list string :=
  match _find_python_paths os w source_directory with
  | inr paths => paths
  | inl _ => []
  end.

(** [os.stat] fails on the file a path resolves to, if at all, with
    [FileNotFoundError]. *)
Definition stat_or_absent (path : string) : Prop :=
  ∀ e, stat_size os w (path_realpath os w path) = inl e →
       is_FileNotFoundError e = true.

(** A source directory can be merged: its listing succeeds, holds no
    empty path, and no listed file fails [os.stat] other than by being
    absent. *)
Definition listable (source_directory : string) : Prop :=
  ∃ paths,
    _find_python_paths os w source_directory = inr paths ∧
    ("" ∉ paths) ∧ Forall stat_or_absent paths.

(** The file at [path] has size zero. *)
Definition is_empty_file (path : string) : bool :=
  match stat_size os w path with
  | inr size => (size =? 0)%Z
  | inl _ => false
  end.

(** A candidate is a listed path, as its path relative to its source
    directory and the real path it resolves to. *)
Definition candidate (source_directory path : string)
    : option (string * string) :=
  match relpath (getcwd os) path source_directory with
  | Some relative => Some (relative, path_realpath os w path)
  | None => None
  end.

Definition candidates (source_directory : string) : list (string * string) :=
  omap (candidate source_directory) (listing source_directory).

(** The exclusion rules: a candidate is kept when it resolves to a
    regular file and is not an empty [__init__.py]. *)
Definition accepted (relative absolute : string) : bool :=
  path_isfile os w absolute &&
  negb (endswith relative "__init__.py" && is_empty_file absolute).

(** What the loop does with one candidate. *)
Definition merge_candidate (all_paths : dict) (c : string * string) : dict :=
  if PyDict.contains all_paths c.1 then all_paths
  else if accepted c.1 c.2 then PyDict.set all_paths c.1 c.2
  else all_paths.

Definition first_accepted (cands : list (string * string))
    (relative : string) : option string :=
  snd <$> List.find (λ c, String.eqb c.1 relative && accepted c.1 c.2) cands.

(** [source_directory] supplies [relative] through the listed [path]. *)
Definition supplies (source_directory path relative : string) : Prop :=
  path ∈ listing source_directory ∧
  relpath (getcwd os) path source_directory = Some relative.

(** Every entry of the dictionary is an accepted candidate of one of the
    directories. *)
Definition from_candidates (dirs : list string) (d : dict) : Prop :=
  Forall
    (λ entry, ∃ sd p,
       sd ∈ dirs ∧ supplies sd p entry.1 ∧
       entry.2 = path_realpath os w p ∧ accepted entry.1 entry.2 = true)
    d.

End MergeNotions.

(** How [with acquire_lock(path, blocking)] enters its body: the value
    the body is given, the state in which it starts and the lock file
    that is closed when it ends.  [None]: the body is not entered. *)
Definition lock_entry {W} (os : OS W) (path : string) (blocking : bool)
    (s : process W) : option (option Z * process W * option Z) :=
  match command (open_w os path) s with
  | (inl e, s1) =>
      if is_FileNotFoundError e then Some (None, s1, None) else None
  | (inr lockfile, s1) =>
      match
        command
          (lockf os lockfile (if negb blocking then LOCK_EX_NB else LOCK_EX))
          s1
      with
      | (inl e, s2) =>
          if is_FileNotFoundError e then
            Some (None, Process (close os lockfile (world s2)) (logged s2),
                  None)
          else None
      | (inr _, s2) => Some (Some lockfile, s2, Some lockfile)
      end
  end.

(** The state once the lock file, if one is held, is closed. *)
Definition close_lock {W} (os : OS W) (held : option Z) (s : process W)
    : process W :=
  match held with
  | Some lockfile => Process (close os lockfile (world s)) (logged s)
  | None => s
  end.

(** The text holds a white space code point. *)
Definition has_whitespace (s : ustr) : bool := existsb is_whitespace s.

(** The text that prints each of the lines and ends it. *)
Definition unlines (lines : list ustr) : ustr :=
  fold_right (λ line out, line ++ 10%N :: out) [] lines.

(** The character [c] occurs in the string. *)
Fixpoint has_char (c : ascii) (s : string) : bool :=
  match s with
  | EmptyString => false
  | String a r => Ascii.eqb a c || has_char c r
  end.

(** One [-name] test per extension, with [-or] between two tests. *)
Fixpoint name_tests (extensions : list string) : list string :=
  match extensions with
  | [] => []
  | [extension] => ["-name"; "*." +:+ extension]
  | extension :: rest =>
      ["-name"; "*." +:+ extension; "-or"] ++ name_tests rest
  end.

(** The command line of the File Lister. *)
Definition find_command {W} (os : OS W) (root : string)
    (extensions : list string) : list string :=
  ["find"; PosixPath.abspath (getcwd os) root; "("] ++
  name_tests extensions ++
  [")"; "("; "-type"; "f"; "-or"; "-type"; "l"; ")"; "-print"].

(** The dictionary [d'] is [d] grown at its end, with keys [d] did not
    have. *)
Definition extends (d d' : dict) : Prop :=
  ∃ added, d' = d ++ added ∧ (NoDup d.*1 → NoDup d'.*1).

(** The non-empty prefixes of a list of components, shortest first. *)
Fixpoint prefixes (comps : list string) : list (list string) :=
  match comps with
  | [] => []
  | comp :: rest => [comp] :: map (cons comp) (prefixes rest)
  end.

(** The absolute path with the components [comps]. *)
Definition rooted (comps : list string) : string :=
  "/" +:+ PyStr.join_with "/" comps.

(** The directories on the upward walk from [rooted comps], the root
    excluded. *)
Definition upward (comps : list string) : list string :=
  rooted <$> reverse (prefixes comps).

(** A component of a normalized path. *)
Definition component (comp : string) : Prop :=
  comp ≠ "" ∧ Posix.has_sep comp = false.

(** C1 as the specification states it, for the directories
    [configured] in their configured order: a relative path that more
    than one of them supplies is mapped to what the earliest of them
    supplies. *)
Definition earliest_configured_wins {W} (os : OS W) (w : W)
    (configured : list string) (self : SharedAnalysisDirectory) : Prop :=
  ∀ earlier sd later p relative,
    configured = earlier ++ sd :: later →
    supplies os w sd p relative →
    (∀ sd' q, sd' ∈ earlier → ¬ supplies os w sd' q relative) →
    (∃ sd' q, sd' ∈ later ∧ supplies os w sd' q relative) →
    ∃ all_paths,
      _merge_all_paths os w self = inr all_paths ∧
      PyDict.get all_paths relative = Some (path_realpath os w p).

(** ** Disks and objects of the examples *)

Module Examples.
Import Posix.

(** An object over [source_directories], rooted at [root]. *)
Definition shared (source_directories targets : list string)
    (links : dict) (root : string) : SharedAnalysisDirectory :=
  {| _source_directories := list_to_set source_directories;
     _targets := list_to_set targets;
     _original_directory := None;
     _filter_paths := [];
     _local_configuration_root := None;
     _search_path := [];
     _isolate := false;
     _build := false;
     _prompt := false;
     _symbolic_links := links;
     root_cache := root |}.

(** The example of the specification: an empty package marker in [/a],
    a package marker of 12 bytes in [/b]. *)
Definition two_trees : disk :=
  list_to_map
    [("/", Dir);
     ("/a", Dir); ("/a/pkg", Dir);
     ("/a/pkg/__init__.py", File 0); ("/a/pkg/mod.py", File 5);
     ("/b", Dir); ("/b/pkg", Dir); ("/b/pkg/__init__.py", File 12)].

Definition plain : OS disk := posix "/" ∅ ∅.

(** The same process, not allowed to read [/a]. *)
Definition locked_out : OS disk := posix "/" ∅ {["/a"]}.

(** The process runs in [/foo], next to the directory [/foo2]. *)
Definition in_foo : OS disk := posix "/foo" ∅ ∅.

Definition siblings : disk :=
  list_to_map
    [("/", Dir); ("/foo", Dir); ("/foo2", Dir); ("/foo2/a.py", File 1)].

(** An analysis directory left by an earlier run. *)
Definition used_root : disk :=
  list_to_map
    [("/", Dir); ("/a", Dir); ("/a/m.py", File 5);
     ("/r", Dir); ("/r/.pyre.lock", File 0); ("/r/.pyre_meta", Dir);
     ("/r/.pyre_meta/x", File 1);
     ("/r/old", Dir); ("/r/old/m.py", Link "/a/m.py");
     ("/r/gone.py", Link "/nowhere"); ("/r/note.txt", File 3)].

(** [two_trees] once [prepare] has made the analysis directory [/r] and
    its lock file. *)
Definition two_trees_locked : disk :=
  <["/r/.pyre.lock" := File 0]> (<["/r" := Dir]> two_trees).

(** A directory that holds a file, but no source file. *)
Definition docs_only : disk :=
  list_to_map [("/", Dir); ("/docs", Dir); ("/docs/readme.txt", File 3)].

End Examples.

(** * Properties *)

(** ** Strings and dictionaries *)

(** Membership in a list that is written out. *)
Ltac elem_cases H :=
  repeat (apply elem_of_cons in H as [H|H]; [try subst|]);
  try (by apply elem_of_nil in H).

Ltac in_list :=
  repeat first [apply list_elem_of_here | apply list_elem_of_further].

Ltac not_in_list :=
  let H := fresh in intros H; elem_cases H; discriminate.

Section StringFacts.
Import PyStr PosixPath.

Lemma str_app_cons (a : ascii) (s t : string) :
  String a s +:+ t = String a (s +:+ t).
Proof. reflexivity. Qed.

Lemma str_app_nil_l (s : string) : "" +:+ s = s.
Proof. reflexivity. Qed.

Lemma str_app_nil_r (s : string) : s +:+ "" = s.
Proof. induction s as [|a s IH]; [done|]. by rewrite str_app_cons, IH. Qed.

Lemma str_app_assoc (s t u : string) : (s +:+ t) +:+ u = s +:+ t +:+ u.
Proof. induction s as [|a s IH]; [done|]. by rewrite !str_app_cons, IH. Qed.

Lemma startswith_iff (s p : string) :
  startswith s p = true ↔ ∃ rest, s = p +:+ rest.
Proof.
  unfold startswith. revert s.
  induction p as [|a p IH]; intros s.
  - split; [intros _; by exists s | by destruct s].
  - destruct s as [|b s]; simpl.
    + split; [intros ?; discriminate | intros [rest Hrest]; discriminate].
    + destruct (Ascii.ascii_dec a b) as [->|Hne].
      * rewrite IH. split; intros [rest Hrest]; exists rest.
        -- by rewrite str_app_cons, <- Hrest.
        -- rewrite str_app_cons in Hrest. congruence.
      * split; [intros ?; discriminate |].
        intros [rest Hrest]. rewrite str_app_cons in Hrest. congruence.
Qed.

Lemma startswith_cons (a b : ascii) (p s : string) :
  startswith (String b s) (String a p) =
  if ascii_dec a b then startswith s p else false.
Proof. reflexivity. Qed.

Lemma startswith_app (p rest : string) : startswith (p +:+ rest) p = true.
Proof. apply startswith_iff. by exists rest. Qed.

Lemma join_relative (a b : string) :
  startswith b sep = false → join a b = join a "" +:+ b.
Proof.
  intros Hb. unfold join. rewrite Hb.
  replace (startswith "" sep) with false by done.
  destruct (is_empty_str a || endswith a sep).
  - by rewrite str_app_nil_r.
  - by rewrite str_app_nil_r, str_app_assoc.
Qed.

End StringFacts.

Section DictFacts.

Lemma get_set (d : dict) (k v k' : string) :
  PyDict.get (PyDict.set d k v) k' =
  if decide (k = k') then Some v else PyDict.get d k'.
Proof.
  induction d as [|[k0 v0] d IH]; simpl.
  - destruct (String.eqb_spec k k'); by case_decide.
  - destruct (String.eqb_spec k0 k) as [->|Hne]; simpl.
    + destruct (String.eqb_spec k k'); by case_decide.
    + destruct (String.eqb_spec k0 k'); [|done].
      case_decide; congruence.
Qed.

Lemma contains_get (d : dict) (k : string) :
  PyDict.contains d k = false ↔ PyDict.get d k = None.
Proof. unfold PyDict.contains. destruct (PyDict.get d k); naive_solver. Qed.

End DictFacts.

(** ** The merge *)

Section MergeFacts.
Context {W : Type} (os : OS W) (w : W).
Import PyStr PosixPath.

Lemma relpath_nonempty (cwd path start : string) :
  path ≠ "" → is_Some (relpath cwd path start).
Proof.
  intros Hpath. unfold relpath.
  destruct path as [|a path]; [done|]. simpl.
  by destruct (replicate _ _ ++ _).
Qed.

Lemma relpath_empty (cwd start : string) : relpath cwd "" start = None.
Proof. reflexivity. Qed.

Lemma is_empty_file_ok (path : string) :
  (∀ e, stat_size os w path = inl e → is_FileNotFoundError e = true) →
  is_empty os w path = inr (is_empty_file os w path).
Proof.
  intros Hstat. unfold is_empty, is_empty_file.
  destruct (stat_size os w path) as [e|size]; [|done].
  by rewrite (Hstat e).
Qed.

Lemma is_empty_true (path : string) :
  is_empty os w path = inr true ↔ is_empty_file os w path = true.
Proof.
  unfold is_empty, is_empty_file.
  destruct (stat_size os w path) as [e|size].
  - destruct (is_FileNotFoundError e); split; congruence.
  - split; congruence.
Qed.

Lemma body_candidate (sd path relative : string) (d : dict) :
  relpath (getcwd os) path sd = Some relative →
  stat_or_absent os w path →
  _merge_into_paths_body os w sd d path =
  inr (merge_candidate os w d (relative, path_realpath os w path)).
Proof.
  intros Hrel Hstat.
  unfold _merge_into_paths_body, os_relpath, merge_candidate.
  rewrite Hrel. simpl.
  destruct path as [|a path]; [by rewrite relpath_empty in Hrel|]. simpl.
  destruct (PyDict.contains d relative); [done|].
  unfold accepted, try_result.
  destruct (path_isfile os w _); [|done]. simpl.
  destruct (endswith relative "__init__.py"); simpl; [|done].
  rewrite is_empty_file_ok by done. simpl.
  by destruct (is_empty_file os w _).
Qed.

Lemma body_empty_path (sd : string) (d : dict) :
  _merge_into_paths_body os w sd d "" =
  inl (ValueError "no path specified").
Proof. reflexivity. Qed.

Lemma loop_candidates (sd : string) (paths : list string) (d : dict) :
  "" ∉ paths → Forall (stat_or_absent os w) paths →
  for_fold paths d (_merge_into_paths_body os w sd) =
  inr (fold_left (merge_candidate os w) (omap (candidate os w sd) paths) d).
Proof.
  revert d. induction paths as [|path paths IH]; intros d Hne Hstat; [done|].
  apply not_elem_of_cons in Hne as [Hpath Hne].
  inversion Hstat as [|? ? Hstat_path Hstat_paths]; subst.
  destruct (relpath_nonempty (getcwd os) path sd) as [relative Hrel];
    [done|].
  simpl. rewrite (body_candidate _ _ relative) by done.
  unfold candidate at 1. rewrite Hrel. simpl. by apply IH.
Qed.

Lemma merge_into_paths_listable (sd : string) (d : dict) :
  listable os w sd →
  _merge_into_paths os w sd d =
  inr (fold_left (merge_candidate os w) (candidates os w sd) d).
Proof.
  intros (paths & Hfind & Hne & Hstat).
  unfold _merge_into_paths, candidates, listing.
  rewrite Hfind. simpl. by apply loop_candidates.
Qed.

Lemma merge_directories (dirs : list string) (d : dict) :
  Forall (listable os w) dirs →
  for_fold dirs d (λ all_paths sd, _merge_into_paths os w sd all_paths) =
  inr (fold_left (merge_candidate os w) (dirs ≫= candidates os w) d).
Proof.
  intros Hdirs. revert d.
  induction Hdirs as [|sd dirs Hsd Hdirs IH]; intros d; [done|].
  simpl. rewrite merge_into_paths_listable by done.
  rewrite fold_left_app. apply IH.
Qed.

Lemma get_merge_candidates (cands : list (string * string)) (d : dict)
    (relative : string) :
  PyDict.get (fold_left (merge_candidate os w) cands d) relative =
  match PyDict.get d relative with
  | Some absolute => Some absolute
  | None => first_accepted os w cands relative
  end.
Proof.
  revert d. induction cands as [|[rel abs] cands IH]; intros d.
  - simpl. by destruct (PyDict.get d relative).
  - simpl. rewrite IH. unfold merge_candidate, first_accepted. simpl.
    destruct (PyDict.contains d rel) eqn:Hin.
    + destruct (PyDict.get d relative) eqn:Hget; [done|].
      destruct (String.eqb_spec rel relative) as [->|Hne]; [|done].
      unfold PyDict.contains in Hin. by rewrite Hget in Hin.
    + apply contains_get in Hin.
      destruct (accepted os w rel abs) eqn:Hacc.
      * rewrite get_set.
        destruct (String.eqb_spec rel relative) as [->|Hne].
        -- rewrite decide_True by done. by rewrite Hin.
        -- rewrite decide_False by done. by rewrite andb_false_l.
      * by rewrite andb_false_r.
Qed.

Lemma merge_all_paths_first_accepted (self : SharedAnalysisDirectory) :
  Forall (listable os w) (set_order os (_source_directories self)) →
  ∃ all_paths,
    _merge_all_paths os w self = inr all_paths ∧
    ∀ relative,
      PyDict.get all_paths relative =
      first_accepted os w
        (set_order os (_source_directories self) ≫= candidates os w) relative.
Proof.
  intros Hdirs. eexists. split.
  - unfold _merge_all_paths. by apply merge_directories.
  - intros relative. by rewrite get_merge_candidates.
Qed.

End MergeFacts.

Section FindFacts.

Lemma find_None {A} (f : A → bool) (l : list A) :
  List.find f l = None ↔ Forall (λ x, f x = false) l.
Proof.
  induction l as [|x l IH]; simpl.
  - split; [constructor | done].
  - destruct (f x) eqn:Hx.
    + split; [done | intros H; inversion H; congruence].
    + rewrite IH. split; [by constructor | by inversion 1].
Qed.

Lemma find_Some {A} (f : A → bool) (l : list A) (c : A) :
  List.find f l = Some c → c ∈ l ∧ f c = true.
Proof.
  induction l as [|x l IH]; simpl; [done|].
  destruct (f x) eqn:Hx.
  - intros [= <-]. split; [left | done].
  - intros [Hin Hc]%IH. split; [by right | done].
Qed.

Lemma find_app {A} (f : A → bool) (l1 l2 : list A) :
  List.find f (l1 ++ l2) =
  match List.find f l1 with Some x => Some x | None => List.find f l2 end.
Proof.
  induction l1 as [|x l1 IH]; simpl; [done|]. by destruct (f x).
Qed.

Lemma find_bind_Some {A B} (f : B → bool) (g : A → list B) (l : list A) (c : B) :
  List.find f (l ≫= g) = Some c ↔
  ∃ l1 x l2,
    l = l1 ++ x :: l2 ∧ List.find f (g x) = Some c ∧
    Forall (λ y, List.find f (g y) = None) l1.
Proof.
  induction l as [|x l IH].
  - split; [done | intros ([|??] & ? & ? & ? & _); done].
  - rewrite bind_cons, find_app.
    destruct (List.find f (g x)) as [c'|] eqn:Hx.
    + split.
      * intros [= <-]. by exists [], x, l.
      * intros ([|y l1] & x' & l2 & Heq & Hfind & Hnone).
        -- injection Heq as <- _. congruence.
        -- injection Heq as <- _. inversion Hnone; congruence.
    + rewrite IH. split.
      * intros (l1 & x' & l2 & -> & Hfind & Hnone).
        exists (x :: l1), x', l2. by repeat split; [|constructor].
      * intros ([|y l1] & x' & l2 & Heq & Hfind & Hnone).
        -- injection Heq as <- _. congruence.
        -- injection Heq as <- ->. exists l1, x', l2.
           by inversion Hnone.
Qed.

End FindFacts.

Section MergePrecedence.
Context {W : Type} (os : OS W) (w : W).
Import PyStr PosixPath.

Lemma elem_of_candidates (sd relative absolute : string) :
  (relative, absolute) ∈ candidates os w sd ↔
  ∃ p, supplies os w sd p relative ∧ absolute = path_realpath os w p.
Proof.
  unfold candidates, supplies. rewrite list_elem_of_omap.
  split.
  - intros (p & Hp & Hc). exists p. unfold candidate in Hc.
    destruct (relpath _ p sd); naive_solver.
  - intros (p & [Hp Hrel] & ->). exists p. split; [done|].
    unfold candidate. by rewrite Hrel.
Qed.

(** No candidate of [sd] for [relative] is accepted. *)
Lemma find_candidates_None (sd relative : string) :
  List.find (λ c, String.eqb c.1 relative && accepted os w c.1 c.2)
    (candidates os w sd) = None ↔
  ∀ q, supplies os w sd q relative →
       accepted os w relative (path_realpath os w q) = false.
Proof.
  rewrite find_None, Forall_forall. split.
  - intros Hall q Hq.
    specialize (Hall (relative, path_realpath os w q)). simpl in Hall.
    rewrite String.eqb_refl in Hall. apply Hall.
    apply elem_of_candidates. by exists q.
  - intros Hall [rel abs] Hin. simpl.
    destruct (String.eqb_spec rel relative) as [->|]; [|done].
    apply elem_of_candidates in Hin as (q & Hq & ->). by apply Hall.
Qed.

End MergePrecedence.

(** C1 (as amended).  The directories are merged in the iteration order
    of the source-directory set.  When every directory can be listed
    ([listable]) and no directory lists two paths with the same relative
    path, the merged mapping sends a relative path to the real path of
    the candidate of the earliest directory that supplies an accepted
    candidate for it (one that resolves to a regular file and is not an
    empty [__init__.py]); what later directories supply for that path is
    ignored, and the order of the paths inside a listing plays no role. *)
Theorem merge_earliest_accepted_wins {W} (os : OS W) (w : W)
    (self : SharedAnalysisDirectory) :
  Forall (listable os w) (set_order os (_source_directories self)) →
  (∀ sd p q relative,
     sd ∈ set_order os (_source_directories self) →
     supplies os w sd p relative → supplies os w sd q relative → p = q) →
  ∃ all_paths,
    _merge_all_paths os w self = inr all_paths ∧
    ∀ relative absolute,
      PyDict.get all_paths relative = Some absolute ↔
      ∃ earlier sd later p,
        set_order os (_source_directories self) = earlier ++ sd :: later ∧
        supplies os w sd p relative ∧
        absolute = path_realpath os w p ∧
        accepted os w relative absolute = true ∧
        ∀ sd' q, sd' ∈ earlier → supplies os w sd' q relative →
                 accepted os w relative (path_realpath os w q) = false.
Proof.
  intros Hlist Hinj.
  destruct (merge_all_paths_first_accepted os w self Hlist)
    as (all_paths & Hrun & Hget).
  exists all_paths. split; [done|].
  intros relative absolute. rewrite Hget. unfold first_accepted.
  set (order := set_order os (_source_directories self)) in *.
  set (f := λ c : string * string,
              String.eqb c.1 relative && accepted os w c.1 c.2).
  split.
  - intros Hfind.
    destruct (List.find f (order ≫= candidates os w)) as [[rel abs]|] eqn:Hc;
      [|done].
    simpl in Hfind. injection Hfind as ->.
    apply find_bind_Some in Hc as (earlier & sd & later & Horder & Hsd & Hno).
    apply find_Some in Hsd as [Hin Hf]. unfold f in Hf. simpl in Hf.
    apply andb_prop in Hf as [Heq Hacc].
    apply String.eqb_eq in Heq as ->.
    apply elem_of_candidates in Hin as (p & Hp & ->).
    exists earlier, sd, later, p. do 4 (split; [done|]).
    intros sd' q Hsd' Hq.
    rewrite Forall_forall in Hno. specialize (Hno sd' Hsd').
    by eapply find_candidates_None in Hno.
  - intros (earlier & sd & later & p & Horder & Hp & -> & Hacc & Hno).
    assert (Hin : (relative, path_realpath os w p) ∈ candidates os w sd).
    { apply elem_of_candidates. by exists p. }
    destruct (List.find f (candidates os w sd)) as [[rel abs]|] eqn:Hsd.
    + assert (Hfind : List.find f (order ≫= candidates os w)
                      = Some (rel, abs)).
      { apply find_bind_Some. exists earlier, sd, later.
        do 2 (split; [done|]).
        apply Forall_forall. intros sd' Hsd'.
        apply find_candidates_None. intros q Hq. by apply (Hno sd'). }
      rewrite Hfind. simpl. f_equal.
      apply find_Some in Hsd as [Hin' Hf]. unfold f in Hf. simpl in Hf.
      apply andb_prop in Hf as [Heq _]. apply String.eqb_eq in Heq as ->.
      apply elem_of_candidates in Hin' as (q & Hq & ->).
      f_equal. apply (Hinj sd q p relative); try done.
      rewrite Horder. apply elem_of_app. right. left.
    + apply find_None in Hsd. rewrite Forall_forall in Hsd.
      specialize (Hsd _ Hin). unfold f in Hsd. simpl in Hsd.
      by rewrite String.eqb_refl, Hacc in Hsd.
Qed.

Section TwoTrees.
Import Posix Examples.

Lemma two_trees_order :
  set_order plain (_source_directories (shared ["/a"; "/b"] [] [] "/r")) =
  ["/a"; "/b"].
Proof. by vm_compute. Qed.

Lemma two_trees_listing_a :
  _find_python_paths plain two_trees "/a" =
  inr ["/a/pkg/__init__.py"; "/a/pkg/mod.py"].
Proof. by vm_compute. Qed.

Lemma two_trees_listing_b :
  _find_python_paths plain two_trees "/b" = inr ["/b/pkg/__init__.py"].
Proof. by vm_compute. Qed.

Lemma two_trees_merged :
  _merge_all_paths plain two_trees (shared ["/a"; "/b"] [] [] "/r") =
  inr [("pkg/mod.py", "/a/pkg/mod.py");
       ("pkg/__init__.py", "/b/pkg/__init__.py")].
Proof. by vm_compute. Qed.

End TwoTrees.

Section TwoTreesMerge.
Import Posix Examples.

Lemma posix_stat_or_absent (cwd : string) (resolved unreadable : gset string)
    (w : disk) (path : string) :
  stat_or_absent (posix cwd resolved unreadable) w path.
Proof.
  intros e. simpl. unfold st_size.
  destruct (w !! _) as [[size| |target]|]; intros [= <-]; done.
Qed.

Lemma two_trees_listable :
  Forall (listable plain two_trees)
    (set_order plain (_source_directories (shared ["/a"; "/b"] [] [] "/r"))).
Proof.
  rewrite two_trees_order.
  repeat constructor.
  - eexists. split; [apply two_trees_listing_a|]. split; [not_in_list|].
    apply Forall_forall. intros path _. apply posix_stat_or_absent.
  - eexists. split; [apply two_trees_listing_b|]. split; [not_in_list|].
    apply Forall_forall. intros path _. apply posix_stat_or_absent.
Qed.

Lemma two_trees_supplies (sd p relative : string) :
  supplies plain two_trees sd p relative →
  sd ∈ ["/a"; "/b"] →
  (sd, p, relative) ∈
    [("/a", "/a/pkg/__init__.py", "pkg/__init__.py");
     ("/a", "/a/pkg/mod.py", "pkg/mod.py");
     ("/b", "/b/pkg/__init__.py", "pkg/__init__.py")].
Proof.
  intros [Hp Hrel] Hsd. elem_cases Hsd.
  - unfold listing in Hp. rewrite two_trees_listing_a in Hp. elem_cases Hp.
    + vm_compute in Hrel. injection Hrel as <-. in_list.
    + vm_compute in Hrel. injection Hrel as <-. in_list.
  - unfold listing in Hp. rewrite two_trees_listing_b in Hp. elem_cases Hp.
    vm_compute in Hrel. injection Hrel as <-. in_list.
Qed.

Lemma two_trees_distinct (sd p q relative : string) :
  sd ∈ set_order plain (_source_directories (shared ["/a"; "/b"] [] [] "/r")) →
  supplies plain two_trees sd p relative →
  supplies plain two_trees sd q relative → p = q.
Proof.
  rewrite two_trees_order. intros Hsd Hp Hq.
  apply two_trees_supplies in Hp; [|done].
  apply two_trees_supplies in Hq; [|done].
  elem_cases Hp; elem_cases Hq; congruence.
Qed.

(** C1, counterexample.  [/a] is the earliest configured directory that
    supplies [pkg/__init__.py], and [/b] supplies it too; the merged
    mapping holds the file of [/b], because that of [/a] is empty. *)
Lemma earliest_configured_wins_counterexample :
  ¬ earliest_configured_wins plain two_trees ["/a"; "/b"]
      (shared ["/a"; "/b"] [] [] "/r").
Proof.
  intros Hwins.
  destruct (Hwins [] "/a" ["/b"] "/a/pkg/__init__.py" "pkg/__init__.py")
    as (all_paths & Hrun & Hget).
  - done.
  - split; [|by vm_compute].
    unfold listing. rewrite two_trees_listing_a. in_list.
  - intros sd' q Hsd'. by apply elem_of_nil in Hsd'.
  - exists "/b", "/b/pkg/__init__.py". split; [in_list|].
    split; [|by vm_compute].
    unfold listing. rewrite two_trees_listing_b. in_list.
  - rewrite two_trees_merged in Hrun. injection Hrun as <-.
    vm_compute in Hget. discriminate.
Qed.

(** The amended C1 at the disk [two_trees]. *)
Lemma merge_earliest_accepted_wins_witness :
  ∃ all_paths,
    _merge_all_paths plain two_trees (shared ["/a"; "/b"] [] [] "/r")
    = inr all_paths ∧
    ∀ relative absolute,
      PyDict.get all_paths relative = Some absolute ↔
      ∃ earlier sd later p,
        set_order plain (_source_directories (shared ["/a"; "/b"] [] [] "/r"))
        = earlier ++ sd :: later ∧
        supplies plain two_trees sd p relative ∧
        absolute = path_realpath plain two_trees p ∧
        accepted plain two_trees relative absolute = true ∧
        ∀ sd' q, sd' ∈ earlier → supplies plain two_trees sd' q relative →
                 accepted plain two_trees relative
                   (path_realpath plain two_trees q) = false.
Proof.
  apply (merge_earliest_accepted_wins plain two_trees
           (shared ["/a"; "/b"] [] [] "/r")).
  - exact two_trees_listable.
  - exact two_trees_distinct.
Defined.

End TwoTreesMerge.

Section PackageMarkerExample.
Context {W : Type} (os : OS W) (w : W).
Import PyStr PosixPath.

Lemma is_empty_size (path : string) (size : Z) :
  stat_size os w path = inr size →
  is_empty_file os w path = (size =? 0)%Z.
Proof. intros H. unfold is_empty_file. by rewrite H. Qed.

Lemma stat_or_absent_size (path : string) (size : Z) :
  path_realpath os w path = path → stat_size os w path = inr size →
  stat_or_absent os w path.
Proof. intros Hreal Hsize e. rewrite Hreal, Hsize. discriminate. Qed.

Lemma order_of_two (self : SharedAnalysisDirectory) (a b : string) :
  a ≠ b → _source_directories self = {[a; b]} →
  set_order os (_source_directories self) = [a; b] ∨
  set_order os (_source_directories self) = [b; a].
Proof.
  intros Hab ->.
  apply Permutation_length_2_inv. symmetry.
  rewrite (set_order_perm os), elements_union_singleton
    by (by apply not_elem_of_singleton).
  by rewrite elements_singleton.
Qed.

End PackageMarkerExample.

(** C2.  [/a] holds [pkg/__init__.py] of size 0 and [pkg/mod.py], [/b]
    holds [pkg/__init__.py] of size 12: whichever of the two directories
    is merged first and in whatever order [/a] is listed, the merged
    mapping sends [pkg/__init__.py] to [/b/pkg/__init__.py] and
    [pkg/mod.py] to [/a/pkg/mod.py]. *)
Theorem nonempty_package_marker_wins {W} (os : OS W) (w : W)
    (self : SharedAnalysisDirectory) (listing_a : list string)
    (size_mod : Z) :
  _source_directories self = {["/a"; "/b"]} →
  _find_python_paths os w "/a" = inr listing_a →
  listing_a ≡ₚ ["/a/pkg/__init__.py"; "/a/pkg/mod.py"] →
  _find_python_paths os w "/b" = inr ["/b/pkg/__init__.py"] →
  (∀ p, p ∈ ["/a/pkg/__init__.py"; "/a/pkg/mod.py"; "/b/pkg/__init__.py"] →
        path_realpath os w p = p ∧ path_isfile os w p = true) →
  stat_size os w "/a/pkg/__init__.py" = inr 0%Z →
  stat_size os w "/a/pkg/mod.py" = inr size_mod →
  stat_size os w "/b/pkg/__init__.py" = inr 12%Z →
  ∃ all_paths,
    _merge_all_paths os w self = inr all_paths ∧
    PyDict.get all_paths "pkg/__init__.py" = Some "/b/pkg/__init__.py" ∧
    PyDict.get all_paths "pkg/mod.py" = Some "/a/pkg/mod.py".
Proof.
  intros Hsrc Ha Hperm Hb Hfiles Hsize_a Hsize_m Hsize_b.
  destruct (Hfiles "/a/pkg/__init__.py") as [Hreal_ai Hfile_ai]; [in_list|].
  destruct (Hfiles "/a/pkg/mod.py") as [Hreal_am Hfile_am]; [in_list|].
  destruct (Hfiles "/b/pkg/__init__.py") as [Hreal_bi Hfile_bi]; [in_list|].
  assert (Hacc_ai :
    accepted os w "pkg/__init__.py" "/a/pkg/__init__.py" = false).
  { unfold accepted.
    by rewrite Hfile_ai, (is_empty_size os w _ 0%Z Hsize_a). }
  assert (Hacc_bi :
    accepted os w "pkg/__init__.py" "/b/pkg/__init__.py" = true).
  { unfold accepted.
    by rewrite Hfile_bi, (is_empty_size os w _ 12%Z Hsize_b). }
  assert (Hacc_am : accepted os w "pkg/mod.py" "/a/pkg/mod.py" = true).
  { unfold accepted. by rewrite Hfile_am. }
  assert (Hcand_b : candidates os w "/b" =
                    [("pkg/__init__.py", "/b/pkg/__init__.py")]).
  { unfold candidates, listing. rewrite Hb. unfold candidate. simpl.
    by rewrite Hreal_bi. }
  assert (Hlist : Forall (listable os w) ["/a"; "/b"]).
  { repeat constructor.
    - exists listing_a. split; [done|]. rewrite Hperm.
      split; [not_in_list|].
      repeat constructor; by eapply stat_or_absent_size.
    - eexists. split; [done|]. split; [not_in_list|].
      repeat constructor; by eapply stat_or_absent_size. }
  assert (Hcand_a :
    candidates os w "/a" =
      [("pkg/__init__.py", "/a/pkg/__init__.py");
       ("pkg/mod.py", "/a/pkg/mod.py")] ∨
    candidates os w "/a" =
      [("pkg/mod.py", "/a/pkg/mod.py");
       ("pkg/__init__.py", "/a/pkg/__init__.py")]).
  { unfold candidates, listing. rewrite Ha.
    symmetry in Hperm.
    apply Permutation_length_2_inv in Hperm as [-> | ->];
      [left | right]; unfold candidate; simpl;
      by rewrite Hreal_ai, Hreal_am. }
  destruct (merge_all_paths_first_accepted os w self) as (d & Hrun & Hget).
  { destruct (order_of_two os self "/a" "/b") as [-> | ->]; try done.
    apply Forall_forall. intros sd Hsd. rewrite Forall_forall in Hlist.
    apply Hlist. elem_cases Hsd; in_list. }
  exists d. split; [done|]. rewrite !Hget.
  unfold first_accepted.
  destruct (order_of_two os self "/a" "/b") as [-> | ->]; try done;
    simpl; rewrite (right_id_L [] (++)), Hcand_b;
    destruct Hcand_a as [-> | ->]; simpl;
    by rewrite ?Hacc_ai, ?Hacc_bi, ?Hacc_am.
Qed.

Section PackageMarkerWitness.
Import Posix Examples.

(** C2 at the disk [two_trees]. *)
Lemma nonempty_package_marker_wins_witness :
  ∃ all_paths,
    _merge_all_paths plain two_trees (shared ["/a"; "/b"] [] [] "/r")
    = inr all_paths ∧
    PyDict.get all_paths "pkg/__init__.py" = Some "/b/pkg/__init__.py" ∧
    PyDict.get all_paths "pkg/mod.py" = Some "/a/pkg/mod.py".
Proof.
  apply (nonempty_package_marker_wins plain two_trees
           (shared ["/a"; "/b"] [] [] "/r")
           ["/a/pkg/__init__.py"; "/a/pkg/mod.py"] 5%Z).
  - simpl. by rewrite (right_id_L ∅ (∪)).
  - by vm_compute.
  - reflexivity.
  - by vm_compute.
  - intros p Hp. elem_cases Hp; by vm_compute.
  - by vm_compute.
  - by vm_compute.
  - by vm_compute.
Defined.

End PackageMarkerWitness.

(** ** Empty package markers *)

Section EmptyMarkers.
Context {W : Type} (os : OS W) (w : W).
Import PyStr PosixPath.

Lemma set_entries (d : dict) (k v : string) (P : string * string → Prop) :
  PyDict.get d k = None → Forall P d → P (k, v) → Forall P (PyDict.set d k v).
Proof.
  intros Hget Hd Hkv. induction d as [|[k0 v0] d IH]; simpl.
  - by constructor.
  - simpl in Hget. destruct (String.eqb_spec k0 k); [done|].
    inversion Hd; subst. constructor; [done | by apply IH].
Qed.

Lemma get_entry (d : dict) (k v : string) :
  PyDict.get d k = Some v → (k, v) ∈ d.
Proof.
  induction d as [|[k0 v0] d IH]; simpl; [done|].
  destruct (String.eqb_spec k0 k) as [->|].
  - intros [= ->]. by left.
  - intros H. right. by apply IH.
Qed.

Lemma body_from_candidates (dirs : list string) (sd path : string)
    (d d' : dict) :
  sd ∈ dirs → path ∈ listing os w sd →
  _merge_into_paths_body os w sd d path = inr d' →
  from_candidates os w dirs d → from_candidates os w dirs d'.
Proof.
  intros Hsd Hpath Hbody Hd.
  unfold _merge_into_paths_body, os_relpath in Hbody.
  destruct (relpath (getcwd os) path sd) as [relative|] eqn:Hrel; [|done].
  simpl in Hbody.
  destruct (is_empty_str path); [by injection Hbody as <-|].
  destruct (PyDict.contains d relative) eqn:Hin; [by injection Hbody as <-|].
  unfold try_result in Hbody.
  destruct (path_isfile os w (path_realpath os w path)) eqn:Hfile;
    [|by injection Hbody as <-].
  simpl in Hbody.
  assert (Hadd : PyDict.get d relative = None →
            endswith relative "__init__.py" &&
            is_empty_file os w (path_realpath os w path) = false →
            from_candidates os w dirs
              (PyDict.set d relative (path_realpath os w path))).
  { intros Hget Hmarker. apply set_entries; [done..|].
    exists sd, path. simpl. do 3 (split; [done|]).
    unfold accepted. by rewrite Hfile, Hmarker. }
  apply contains_get in Hin.
  destruct (endswith relative "__init__.py") eqn:Hends; simpl in Hbody.
  - destruct (is_empty os w (path_realpath os w path)) as [e|[]] eqn:Hempty;
      simpl in Hbody.
    + destruct (is_FileNotFoundError e); [by injection Hbody as <-|done].
    + by injection Hbody as <-.
    + injection Hbody as <-. apply Hadd; [done|]. simpl.
      destruct (is_empty_file os w _) eqn:Hfile_empty; [|done].
      apply is_empty_true in Hfile_empty. congruence.
  - injection Hbody as <-. by apply Hadd.
Qed.

Lemma loop_from_candidates (dirs : list string) (sd : string)
    (paths : list string) (d d' : dict) :
  sd ∈ dirs → paths ⊆ listing os w sd →
  for_fold paths d (_merge_into_paths_body os w sd) = inr d' →
  from_candidates os w dirs d → from_candidates os w dirs d'.
Proof.
  intros Hsd. revert d.
  induction paths as [|path paths IH]; intros d Hsub Hrun Hd.
  - by injection Hrun as <-.
  - simpl in Hrun.
    destruct (_merge_into_paths_body os w sd d path) as [e|d1] eqn:Hbody;
      [done|].
    apply (IH d1); [| done |].
    + intros x Hx. apply Hsub. by right.
    + eapply body_from_candidates; [done | | done..]. apply Hsub. by left.
Qed.

Lemma merge_into_paths_from_candidates (dirs : list string) (sd : string)
    (d d' : dict) :
  sd ∈ dirs → _merge_into_paths os w sd d = inr d' →
  from_candidates os w dirs d → from_candidates os w dirs d'.
Proof.
  intros Hsd Hrun Hd. unfold _merge_into_paths in Hrun.
  destruct (_find_python_paths os w sd) as [e|paths] eqn:Hfind; [done|].
  simpl in Hrun.
  eapply loop_from_candidates; [done | | done..].
  unfold listing. by rewrite Hfind.
Qed.

Lemma merge_all_paths_from_candidates (self : SharedAnalysisDirectory)
    (all_paths : dict) :
  _merge_all_paths os w self = inr all_paths →
  from_candidates os w (set_order os (_source_directories self)) all_paths.
Proof.
  unfold _merge_all_paths.
  set (order := set_order os (_source_directories self)).
  assert (Hgen : ∀ dirs d,
            dirs ⊆ order → from_candidates os w order d →
            for_fold dirs d
              (λ all_paths sd, _merge_into_paths os w sd all_paths)
            = inr all_paths →
            from_candidates os w order all_paths).
  { induction dirs as [|sd dirs IH]; intros d Hsub Hd Hrun.
    - by injection Hrun as <-.
    - simpl in Hrun.
      destruct (_merge_into_paths os w sd d) as [e|d1] eqn:Hsd; [done|].
      apply (IH d1); [| | done].
      + intros x Hx. apply Hsub. by right.
      + eapply merge_into_paths_from_candidates; [|done..].
        apply Hsub. by left. }
  apply Hgen; [done | by constructor].
Qed.

End EmptyMarkers.

(** C10.  A candidate whose relative path ends with [__init__.py] and
    whose real file is empty never enters the merged mapping: no entry of
    the mapping is such a pair, a relative path that only such candidates
    supply is no key of it, and [_merge] creates symbolic links for the
    entries of the mapping and for nothing else (for nothing at all when
    building the mapping raises). *)
Theorem empty_package_marker_never_merged {W} (os : OS W)
    (self : SharedAnalysisDirectory) (s : process W) :
  match _merge_all_paths os (world s) self with
  | inl e => _merge os self s = (inl e, s)
  | inr all_paths =>
      _merge os self s =
        for_each (PyDict.items all_paths)
          (λ '(relative, original),
             _add_symbolic_link os
               (PosixPath.join (get_root self) relative) original) s ∧
      (∀ relative absolute,
         (relative, absolute) ∈ PyDict.items all_paths →
         ¬ (PyStr.endswith relative "__init__.py" = true ∧
            is_empty os (world s) absolute = inr true)) ∧
      (∀ relative,
         (∀ sd p,
            sd ∈ set_order os (_source_directories self) →
            supplies os (world s) sd p relative →
            PyStr.endswith relative "__init__.py" = true ∧
            is_empty os (world s) (path_realpath os (world s) p) = inr true) →
         PyDict.get all_paths relative = None ∧
         ∀ absolute, (relative, absolute) ∉ PyDict.items all_paths)
  end.
Proof.
  destruct (_merge_all_paths os (world s) self) as [e|all_paths] eqn:Hrun.
  - unfold _merge, query, mbind, M_bind. by rewrite Hrun.
  - apply merge_all_paths_from_candidates in Hrun as Hinv.
    unfold from_candidates in Hinv. rewrite Forall_forall in Hinv.
    assert (Hentry : ∀ relative absolute,
              (relative, absolute) ∈ PyDict.items all_paths →
              ∃ sd p,
                sd ∈ set_order os (_source_directories self) ∧
                supplies os (world s) sd p relative ∧
                absolute = path_realpath os (world s) p ∧
                ¬ (PyStr.endswith relative "__init__.py" = true ∧
                   is_empty os (world s) absolute = inr true)).
    { intros relative absolute Hin.
      destruct (Hinv _ Hin) as (sd & p & Hsd & Hp & Habs & Hacc).
      simpl in *. exists sd, p. do 3 (split; [done|]).
      intros [Hends Hempty%is_empty_true]. unfold accepted in Hacc.
      rewrite Hends, Hempty in Hacc.
      by rewrite andb_false_r in Hacc. }
    split; [|split].
    + unfold _merge, query, mbind, M_bind. by rewrite Hrun.
    + intros relative absolute Hin.
      by destruct (Hentry _ _ Hin) as (_ & _ & _ & _ & _ & Hno).
    + intros relative Honly.
      assert (Hnone : ∀ absolute,
                (relative, absolute) ∉ PyDict.items all_paths).
      { intros absolute Hin.
        destruct (Hentry _ _ Hin) as (sd & p & Hsd & Hp & -> & Hno).
        apply Hno. by apply (Honly sd p). }
      split; [|done].
      destruct (PyDict.get all_paths relative) as [absolute|] eqn:Hget;
        [|done].
      apply get_entry in Hget. by apply Hnone in Hget.
Qed.

(** ** Updated files *)

Section UpdatedFiles.
Context {W : Type} (os : OS W).
Import PyStr PosixPath.

Lemma is_tracked_in_iff (directories : list string) (path : string) :
  is_tracked_in directories path = true ↔
  ∃ directory rest,
    directory ∈ directories ∧
    path = rstrip_char sep_char directory +:+ sep +:+ rest.
Proof.
  unfold is_tracked_in. rewrite existsb_exists. split.
  - intros (directory & Hin & Hstarts).
    apply startswith_iff in Hstarts as [rest ->].
    exists directory, rest. split; [by apply list_elem_of_In|].
    by rewrite str_app_assoc.
  - intros (directory & rest & Hin & ->).
    exists directory. split; [by apply list_elem_of_In|].
    rewrite <- str_app_assoc. apply startswith_app.
Qed.

Lemma process_updated_files_acc (self : SharedAnalysisDirectory)
    (paths acc : list string) :
  fold_left
    (λ tracked_files path,
       match PyDict.get (_symbolic_links self) path with
       | Some link => tracked_files ++ [link]
       | None =>
           if _is_tracked os self path then tracked_files ++ [path]
           else tracked_files
       end)
    paths acc =
  acc ++
  (paths ≫= λ path,
     match PyDict.get (_symbolic_links self) path with
     | Some link => [link]
     | None => if _is_tracked os self path then [path] else []
     end).
Proof.
  revert acc. induction paths as [|path paths IH]; intros acc.
  - simpl. by rewrite (right_id_L [] (++)).
  - simpl. rewrite IH.
    destruct (PyDict.get (_symbolic_links self) path) as [link|].
    + by rewrite <- (assoc_L (++)).
    + destruct (_is_tracked os self path); [|done].
      by rewrite <- (assoc_L (++)).
Qed.

End UpdatedFiles.

(** C3.  [process_updated_files] goes through the paths in order and
    emits, for a path that is a key of the reverse index, its link path;
    for another path that lies under a tracked directory, the path
    itself; for any other path, nothing.  A path lies under a tracked
    directory when it continues that directory, stripped of trailing
    separators, by a separator: under the tracked root [/foo] the path
    [/foo/a.py] is tracked and [/foo2/a.py] is not.  The result has at
    most one entry per given path, and each entry comes from one. *)
Theorem process_updated_files_translates {W} (os : OS W)
    (self : SharedAnalysisDirectory) (paths : list string) :
  process_updated_files os self paths =
    (paths ≫= λ path,
       match PyDict.get (_symbolic_links self) path with
       | Some link => [link]
       | None => if _is_tracked os self path then [path] else []
       end) ∧
  (∀ path,
     _is_tracked os self path = true ↔
     ∃ directory rest,
       directory ∈ _tracked_directories os self ∧
       path = PyStr.rstrip_char "/" directory +:+ "/" +:+ rest) ∧
  (is_tracked_in (tracked_directories_of os "/foo" []) "/foo/a.py" = true ∧
   is_tracked_in (tracked_directories_of os "/foo" []) "/foo2/a.py" = false) ∧
  (length (process_updated_files os self paths) ≤ length paths)%nat ∧
  (∀ out, out ∈ process_updated_files os self paths →
     ∃ path, path ∈ paths ∧
       (PyDict.get (_symbolic_links self) path = Some out ∨
        (PyDict.get (_symbolic_links self) path = None ∧
         _is_tracked os self path = true ∧ out = path))).
Proof.
  assert (Heq : process_updated_files os self paths =
    (paths ≫= λ path,
       match PyDict.get (_symbolic_links self) path with
       | Some link => [link]
       | None => if _is_tracked os self path then [path] else []
       end)).
  { unfold process_updated_files. by rewrite process_updated_files_acc. }
  split; [done|]. split; [|split; [|split]].
  - intros path. apply is_tracked_in_iff.
  - by vm_compute.
  - rewrite Heq. clear Heq.
    induction paths as [|path paths IH]; [done|].
    rewrite bind_cons, length_app. simpl.
    destruct (PyDict.get (_symbolic_links self) path);
      [|destruct (_is_tracked os self path)]; simpl; lia.
  - intros out. rewrite Heq. rewrite list_elem_of_bind.
    intros (path & Hout & Hpath). exists path. split; [done|].
    destruct (PyDict.get (_symbolic_links self) path) as [link|].
    + left. apply list_elem_of_singleton in Hout. by subst.
    + destruct (_is_tracked os self path) eqn:Htracked.
      * right. apply list_elem_of_singleton in Hout. by subst.
      * by apply elem_of_nil in Hout.
Qed.

(** ** Failures of the File Lister *)

Section ListingFailure.
Context {W : Type} (os : OS W).

Lemma for_fold_app {A B} (l1 l2 : list A) (acc : B) (body : B → A → result B) :
  for_fold (l1 ++ l2) acc body =
  match for_fold l1 acc body with
  | inl e => inl e
  | inr acc' => for_fold l2 acc' body
  end.
Proof.
  revert acc. induction l1 as [|x l1 IH]; intros acc; [done|].
  simpl. by destruct (body acc x).
Qed.

Lemma compute_mapping_listing_fails (directory : string)
    (extensions : list string) (msg : string) (s : process W) :
  find_paths_with_extensions os (world s) directory extensions =
    inl (CalledProcessError msg) →
  _compute_symbolic_link_mapping os directory extensions s =
  (inr [],
   Process (world s)
     (logged s ++
      [(WARNING,
        "Exception encountered trying to find source files " +:+
        "in the analysis directory: `" +:+ msg +:+ "`");
       (WARNING, "Starting with an empty set of tracked files.")])).
Proof.
  intros Hfind.
  unfold _compute_symbolic_link_mapping, try_except, query, mbind, M_bind.
  rewrite Hfind. simpl. unfold LOG. simpl.
  by rewrite <- (assoc_L (++)).
Qed.

Lemma find_python_paths_listing_fails (w : W) (sd msg : string) :
  find_paths_with_extensions os w sd ["py"; "pyi"] =
    inl (CalledProcessError msg) →
  _find_python_paths os w sd =
  inl (EnvironmentException
         ("Pyre was unable to locate an analysis directory. " +:+
          "Ensure that your project is built and re-run pyre.")).
Proof. intros Hfind. unfold _find_python_paths. by rewrite Hfind. Qed.

Lemma merge_all_paths_listing_fails (w : W) (self : SharedAnalysisDirectory)
    (earlier later : list string) (sd msg : string) :
  set_order os (_source_directories self) = earlier ++ sd :: later →
  Forall (listable os w) earlier →
  find_paths_with_extensions os w sd ["py"; "pyi"] =
    inl (CalledProcessError msg) →
  _merge_all_paths os w self =
  inl (EnvironmentException
         ("Pyre was unable to locate an analysis directory. " +:+
          "Ensure that your project is built and re-run pyre.")).
Proof.
  intros Horder Hearlier Hfind. unfold _merge_all_paths.
  rewrite Horder, for_fold_app, merge_directories by done.
  simpl. unfold _merge_into_paths.
  by rewrite (find_python_paths_listing_fails w sd msg).
Qed.

Lemma acquire_lock_body_raises {A} (path : string) (blocking : bool)
    (body : option Z → M W A) (s started s' : process W)
    (lock held : option Z) (e : exn) :
  lock_entry os path blocking s = Some (lock, started, held) →
  body lock started = (inl e, s') →
  is_FileNotFoundError e = false →
  acquire_lock os path blocking body s = (inl e, close_lock os held s').
Proof.
  unfold lock_entry, acquire_lock. intros Hentry Hbody Hexn.
  destruct (command (open_w os path) s) as [[e1|lockfile] s1].
  - destruct (is_FileNotFoundError e1); [|done].
    injection Hentry as <- <- <-. by rewrite Hbody.
  - destruct (command (lockf os lockfile _) s1) as [[e2|[]] s2].
    + destruct (is_FileNotFoundError e2); [|done].
      injection Hentry as <- <- <-. by rewrite Hbody.
    + injection Hentry as <- <- <-. by rewrite Hbody, Hexn.
Qed.

End ListingFailure.

(** C4.  Let the File Lister fail on the directory [sd] with
    [CalledProcessError] in the state [s].  Building the reverse index
    over [sd] in that state logs two warnings and returns the empty
    index.  When [sd] is a source directory and the directories merged
    before it can be listed in that state, [_merge] raises the
    [EnvironmentException] of the configuration error and changes
    nothing; and every [prepare] that reaches its merge in that state,
    with or without a lock file, raises that same exception, the lock
    file closed. *)
Theorem listing_failure_handling {W} (os : OS W)
    (self : SharedAnalysisDirectory) (earlier later : list string)
    (sd msg : string) (s : process W) :
  find_paths_with_extensions os (world s) sd ["py"; "pyi"] =
    inl (CalledProcessError msg) →
  _compute_symbolic_link_mapping os sd ["py"; "pyi"] s =
    (inr [],
     Process (world s)
       (logged s ++
        [(WARNING,
          "Exception encountered trying to find source files " +:+
          "in the analysis directory: `" +:+ msg +:+ "`");
         (WARNING, "Starting with an empty set of tracked files.")])) ∧
  (set_order os (_source_directories self) = earlier ++ sd :: later →
   Forall (listable os (world s)) earlier →
   _merge os self s =
     (inl (EnvironmentException
             ("Pyre was unable to locate an analysis directory. " +:+
              "Ensure that your project is built and re-run pyre.")), s) ∧
   ∀ self0 s0 s1 s2 s3 lock held,
     _resolve_source_directories os self0
       (Process (world s0)
          (logged s0 ++
           [(INFO, "Constructing shared directory `" +:+
                   get_root self0 +:+ "`")]))
     = (inr self, s1) →
     try_except (command (makedirs os (get_root self0))) is_OSError
       (λ _, mret tt) s1 = (inr tt, s2) →
     lock_entry os (PosixPath.join (get_root self0) ".pyre.lock") true s2
     = Some (lock, s3, held) →
     _clear os self s3 = (inr tt, s) →
     prepare os self0 s0 =
       (inl (EnvironmentException
               ("Pyre was unable to locate an analysis directory. " +:+
                "Ensure that your project is built and re-run pyre.")),
        close_lock os held s)).
Proof.
  intros Hfind. split; [by apply compute_mapping_listing_fails|].
  intros Horder Hearlier.
  assert (Hmerge :
    _merge os self s =
      (inl (EnvironmentException
              ("Pyre was unable to locate an analysis directory. " +:+
               "Ensure that your project is built and re-run pyre.")), s)).
  { unfold _merge, query, mbind, M_bind.
    by rewrite (merge_all_paths_listing_fails os (world s) self
                  earlier later sd msg). }
  split; [done|].
  intros self0 s0 s1 s2 s3 lock held Hresolve Hmakedirs Hentry Hclear.
  unfold prepare.
  unfold mbind at 1. unfold M_bind at 1. unfold LOG at 1.
  unfold mbind at 1. unfold M_bind at 1. rewrite Hresolve.
  unfold mbind at 1. unfold M_bind at 1. rewrite Hmakedirs.
  unfold mbind at 1. unfold M_bind at 1.
  rewrite (acquire_lock_body_raises os _ true _ s2 s3 s lock held
             (EnvironmentException
                ("Pyre was unable to locate an analysis directory. " +:+
                 "Ensure that your project is built and re-run pyre.")) Hentry);
    [done| |done].
  unfold mbind at 1. unfold M_bind at 1. rewrite Hclear.
  unfold mbind at 1. unfold M_bind at 1. by rewrite Hmerge.
Qed.

Section ListingFailureWitness.
Import Posix Examples.

(** C4 at a run whose second source directory, [/zz], does not exist:
    the merge is reached with the analysis directory made and locked,
    lists [/a] and fails on [/zz]. *)
Lemma listing_failure_handling_witness :
  let self := shared ["/a"; "/zz"] [] [] "/r" in
  let s := Process two_trees_locked
             [(INFO, "Constructing shared directory `/r`")] in
  _compute_symbolic_link_mapping plain "/zz" ["py"; "pyi"] s =
    (inr [],
     Process two_trees_locked
       [(INFO, "Constructing shared directory `/r`");
        (WARNING,
         "Exception encountered trying to find source files " +:+
         "in the analysis directory: " +:+
         "`find returned non-zero exit status 1.`");
        (WARNING, "Starting with an empty set of tracked files.")]) ∧
  _merge plain self s =
    (inl (EnvironmentException
            ("Pyre was unable to locate an analysis directory. " +:+
             "Ensure that your project is built and re-run pyre.")), s) ∧
  prepare plain self (Process two_trees []) =
    (inl (EnvironmentException
            ("Pyre was unable to locate an analysis directory. " +:+
             "Ensure that your project is built and re-run pyre.")), s).
Proof.
  destruct (listing_failure_handling plain
              (shared ["/a"; "/zz"] [] [] "/r")
              ["/a"] [] "/zz" "find returned non-zero exit status 1."
              (Process two_trees_locked
                 [(INFO, "Constructing shared directory `/r`")]))
    as (Hindex & Hrest); [by vm_compute|].
  destruct Hrest as [Hmerge Hprepare].
  - by vm_compute.
  - repeat constructor.
    exists ["/a/pkg/__init__.py"; "/a/pkg/mod.py"].
    split; [by vm_compute|]. split; [not_in_list|].
    apply Forall_forall. intros path _. apply posix_stat_or_absent.
  - split; [exact Hindex|]. split; [exact Hmerge|].
    apply (Hprepare (shared ["/a"; "/zz"] [] [] "/r")
             (Process two_trees [])
             (Process two_trees
                [(INFO, "Constructing shared directory `/r`")])
             (Process (<["/r" := Dir]> two_trees)
                [(INFO, "Constructing shared directory `/r`")])
             (Process two_trees_locked
                [(INFO, "Constructing shared directory `/r`")])
             (Some 3%Z) (Some 3%Z)); by vm_compute.
Defined.

(** The same holds of a process that may not read its only source
    directory. *)
Example prepare_locked_out :
  (prepare locked_out (shared ["/a"] [] [] "/r") (Process two_trees [])).1 =
  inl (EnvironmentException
         ("Pyre was unable to locate an analysis directory. " +:+
          "Ensure that your project is built and re-run pyre.")).
Proof. by vm_compute. Qed.

End ListingFailureWitness.

(** ** Resolution of the source directories *)

(** C6.  When [_resolve_source_directories] returns, the source-directory
    set is not empty.  When the set is empty after the targets, if any,
    were resolved and translated, the method raises
    [EnvironmentException]; and whatever makes the method raise makes
    [prepare] raise the same exception in the same state: no directory is
    made, no lock taken, nothing cleared or merged. *)
Theorem no_merge_without_sources {W} (os : OS W)
    (self : SharedAnalysisDirectory) (s : process W) :
  (∀ self' s1,
     _resolve_source_directories os self s = (inr self', s1) →
     _source_directories self' ≠ ∅) ∧
  (_targets self = ∅ → _source_directories self = ∅ →
   _resolve_source_directories os self s =
   (inl (EnvironmentException "No targets or source directories to analyze."),
    s)) ∧
  (∀ new w' translated,
     _targets self ≠ ∅ →
     generate_source_directories os (_targets self) (_build self)
       (_prompt self) (world s) = (inr new, w') →
     match _original_directory self with
     | Some original_directory => translate_paths os w' new original_directory
     | None => inr new
     end = inr translated →
     _source_directories self ∪ translated = ∅ →
     _resolve_source_directories os self s =
     (inl (EnvironmentException
             "No targets or source directories to analyze."),
      Process w' (logged s))) ∧
  (∀ e s1,
     _resolve_source_directories os self
       (Process (world s)
          (logged s ++
           [(INFO, "Constructing shared directory `" +:+
                   get_root self +:+ "`")]))
     = (inl e, s1) →
     prepare os self s = (inl e, s1)).
Proof.
  split; [|split; [|split]].
  - intros self' s1. unfold _resolve_source_directories.
    unfold mbind at 1. unfold M_bind at 1.
    match goal with |- context [match ?c s with _ => _ end] =>
      destruct (c s) as [[e|self1] s2] end; [done|].
    destruct (size (_source_directories self1) =? 0)%nat eqn:Hsize; [done|].
    intros [= <- <-] Hempty. rewrite Hempty in Hsize.
    by rewrite size_empty in Hsize.
  - intros Htargets Hsources. unfold _resolve_source_directories.
    rewrite decide_True by done.
    unfold mbind, M_bind, mret, M_ret. by rewrite Hsources, size_empty.
  - intros new w' translated Htargets Hgen Htrans Hempty.
    unfold _resolve_source_directories.
    rewrite decide_False by done.
    unfold mbind at 1. unfold M_bind at 1.
    unfold mbind at 1. unfold M_bind at 1.
    unfold mbind at 1. unfold M_bind at 1.
    unfold command at 1. rewrite Hgen.
    destruct (_original_directory self) as [original_directory|].
    + unfold query at 1. simpl. rewrite Htrans.
      unfold mret, M_ret. simpl. by rewrite Hempty, size_empty.
    + injection Htrans as ->. unfold mret, M_ret. simpl.
      by rewrite Hempty, size_empty.
  - intros e s1 Hresolve. unfold prepare.
    unfold mbind at 1. unfold M_bind at 1. unfold LOG at 1.
    unfold mbind at 1. unfold M_bind at 1. by rewrite Hresolve.
Qed.

Section ResolutionWitness.
Import Posix Examples.

(** C6 at an object with one target that resolves to no directory. *)
Lemma no_merge_without_sources_witness :
  prepare plain (shared [] ["//project:target"] [] "/r")
    (Process two_trees []) =
  (inl (EnvironmentException "No targets or source directories to analyze."),
   Process two_trees [(INFO, "Constructing shared directory `/r`")]).
Proof.
  destruct (no_merge_without_sources plain
              (shared [] ["//project:target"] [] "/r")
              (Process two_trees
                 [(INFO, "Constructing shared directory `/r`")]))
    as (_ & _ & Hresolve & _).
  destruct (no_merge_without_sources plain
              (shared [] ["//project:target"] [] "/r")
              (Process two_trees []))
    as (_ & _ & _ & Hprepare).
  apply Hprepare.
  apply (Hresolve ∅ two_trees ∅).
  - by vm_compute.
  - reflexivity.
  - reflexivity.
  - by vm_compute.
Defined.

End ResolutionWitness.

(** ** Clearing the analysis directory *)

Section PathFacts.
Import PyStr PosixPath Posix.

Lemma strip_prefix_Some (prefix path rest : string) :
  strip_prefix prefix path = Some rest ↔ path = prefix +:+ rest.
Proof.
  revert path. induction prefix as [|a p IH]; intros path; simpl.
  - rewrite str_app_nil_l. split; congruence.
  - rewrite str_app_cons. destruct path as [|b q]; [split; discriminate|].
    destruct (Ascii.eqb_spec a b) as [->|Hne].
    + rewrite IH. split; congruence.
    + split; [discriminate | congruence].
Qed.

Lemma has_sep_app (a b : string) :
  has_sep (a +:+ b) = has_sep a || has_sep b.
Proof.
  induction a as [|c a IH]; [done|].
  rewrite str_app_cons. simpl. by rewrite IH, orb_assoc.
Qed.

Lemma has_sep_startswith (name : string) :
  has_sep name = false → startswith name sep = false.
Proof.
  destruct name as [|c name]; [done|]. intros Hsep. simpl in Hsep.
  apply orb_false_elim in Hsep as [Hc _]. apply Ascii.eqb_neq in Hc.
  change sep with (String sep_char ""). rewrite startswith_cons.
  by destruct (ascii_dec sep_char c) as [<-|].
Qed.

Lemma join_child (root name : string) :
  has_sep name = false → join root name = with_sep root +:+ name.
Proof. intros H. by apply join_relative, has_sep_startswith. Qed.

Lemma str_length_app (a b : string) :
  String.length (a +:+ b) = (String.length a + String.length b)%nat.
Proof. induction a as [|c a IH]; [done|]. rewrite str_app_cons. simpl. lia. Qed.

Lemma endswith_cons (c : ascii) (s p : string) :
  endswith (String c s) p = String.eqb (String c s) p || endswith s p.
Proof. reflexivity. Qed.

Lemma endswith_sep_name (pre name : string) :
  name ≠ "" → has_sep name = false → endswith (pre +:+ name) sep = false.
Proof.
  intros Hne Hsep. induction pre as [|a pre IH].
  - rewrite str_app_nil_l. clear Hne.
    induction name as [|c name IH]; [done|].
    simpl in Hsep. apply orb_false_elim in Hsep as [Hc Hsep].
    apply Ascii.eqb_neq in Hc.
    rewrite endswith_cons, (IH Hsep), orb_false_r.
    apply String.eqb_neq. intros [= -> _]. done.
  - rewrite str_app_cons, endswith_cons, IH, orb_false_r.
    apply String.eqb_neq. intros [= _ Happ].
    destruct pre; [|done]. by rewrite str_app_nil_l in Happ.
Qed.

Lemma with_sep_child (root name : string) :
  name ≠ "" → has_sep name = false →
  with_sep (with_sep root +:+ name) = (with_sep root +:+ name) +:+ sep.
Proof.
  intros Hne Hsep. unfold with_sep at 1. unfold join.
  replace (startswith "" sep) with false by done.
  rewrite endswith_sep_name by done.
  destruct (with_sep root +:+ name) eqn:Happ.
  - destruct (with_sep root); [|done]. by rewrite str_app_nil_l in Happ.
  - simpl. by rewrite str_app_nil_r.
Qed.

Lemma child_name_Some (root key name : string) :
  child_name root key = Some name ↔
  key = with_sep root +:+ name ∧ name ≠ "" ∧ has_sep name = false.
Proof.
  unfold child_name.
  destruct (strip_prefix (with_sep root) key) as [rest|] eqn:Hstrip.
  - apply strip_prefix_Some in Hstrip as ->.
    destruct rest as [|c rest]; simpl.
    + split; [done|]. intros (Heq & Hne & _).
      apply (inj (String.app _)) in Heq. congruence.
    + destruct (Ascii.eqb c sep_char || has_sep rest) eqn:Hs.
      * split; [done|]. intros (Heq & _ & Hsep).
        apply (inj (String.app _)) in Heq as <-. simpl in Hsep. congruence.
      * split; [by intros [= <-] |].
        intros (Heq & _). by apply (inj (String.app _)) in Heq as <-.
  - split; [done|]. intros (-> & _).
    assert (Hs : strip_prefix (with_sep root) (with_sep root +:+ name)
                 = Some name) by by apply strip_prefix_Some.
    congruence.
Qed.

Lemma elem_of_children (w : disk) (root name : string) :
  name ∈ children w root ↔
  is_Some (w !! (with_sep root +:+ name)) ∧ name ≠ "" ∧ has_sep name = false.
Proof.
  unfold children. rewrite list_elem_of_omap. split.
  - intros (key & Hkey & Hname).
    apply child_name_Some in Hname as (-> & Hne & Hsep).
    split; [|done].
    apply list_elem_of_fmap in Hkey as ([k v] & -> & Hkv).
    apply elem_of_map_to_list in Hkv. by exists v.
  - intros ([v Hv] & Hne & Hsep). exists (with_sep root +:+ name).
    split; [|by apply child_name_Some].
    apply list_elem_of_fmap. exists (with_sep root +:+ name, v).
    split; [done|]. by apply elem_of_map_to_list.
Qed.

Lemma NoDup_children (w : disk) (root : string) : NoDup (children w root).
Proof.
  unfold children.
  pose proof (NoDup_fst_map_to_list w) as Hkeys.
  induction Hkeys as [|key keys Hnotin Hkeys IH]; simpl; [constructor|].
  destruct (child_name root key) as [name|] eqn:Hname; [|done].
  constructor; [|done].
  intros Hin. apply list_elem_of_omap in Hin as (key' & Hkey' & Hname').
  apply child_name_Some in Hname as (-> & _).
  apply child_name_Some in Hname' as (-> & _). done.
Qed.

(** A child is neither another child nor under one. *)
Lemma child_not_under (root name name' : string) :
  name ≠ "" → has_sep name = false → has_sep name' = false →
  under (with_sep root +:+ name) (with_sep root +:+ name') = false.
Proof.
  intros Hne Hsep Hsep'. unfold under.
  destruct (startswith _ _) eqn:Hstarts; [|done].
  apply startswith_iff in Hstarts as [rest Hrest].
  rewrite with_sep_child, !str_app_assoc in Hrest by done.
  apply (inj (String.app _)) in Hrest. subst name'.
  rewrite !has_sep_app in Hsep'. simpl in Hsep'.
  by rewrite orb_true_r in Hsep'.
Qed.

Lemma root_not_under_child (root name : string) :
  name ≠ "" → has_sep name = false →
  root ≠ with_sep root +:+ name ∧
  under (with_sep root +:+ name) root = false.
Proof.
  intros Hne Hsep.
  assert (Hlen : (String.length root ≤ String.length (with_sep root))%nat).
  { unfold with_sep, join. replace (startswith "" sep) with false by done.
    destruct (is_empty_str root || endswith root sep);
      rewrite ?str_length_app; lia. }
  assert (Hname : (0 < String.length name)%nat).
  { destruct name; [done | simpl; lia]. }
  split.
  - intros Heq. apply (f_equal String.length) in Heq.
    rewrite str_length_app in Heq. lia.
  - unfold under. destruct (startswith _ _) eqn:Hstarts; [|done].
    apply startswith_iff in Hstarts as [rest Hrest].
    rewrite with_sep_child in Hrest by done.
    apply (f_equal String.length) in Hrest.
    rewrite !str_length_app in Hrest. lia.
Qed.

End PathFacts.

Section ClearFacts.
Import PyStr PosixPath Posix.
Context (cwd : string) (resolved unreadable : gset string).

Lemma purge_lookup (path : string) (w : disk) (j : string) :
  purge path w !! j =
  if decide (j = path) then None
  else if is_dir w path && under path j then None
  else w !! j.
Proof.
  unfold purge. rewrite map_lookup_filter.
  destruct (w !! j) as [v|] eqn:Hj; simpl.
  - case_decide as Heq.
    + rewrite option_guard_False; [done|]. by intros [? _].
    + destruct (is_dir w path && under path j) eqn:Hunder.
      * rewrite option_guard_False; [done|]. by intros [_ ?].
      * by rewrite option_guard_True.
  - case_decide; [done|]. by destruct (is_dir w path && under path j).
Qed.

Lemma remove_if_exists_posix (path : string) (w : disk)
    (log : list (log_level * string)) :
  remove_if_exists (posix cwd resolved unreadable) path (Process w log) =
  (inr tt, Process (purge (abspath cwd path) w) log).
Proof.
  unfold remove_if_exists, try_except, command, mbind, M_bind. simpl.
  unfold os_remove, shutil_rmtree.
  set (k := abspath cwd path).
  destruct (w !! k) as [[size| |target]|] eqn:Hk; simpl.
  - rewrite lookup_delete_eq. simpl. do 2 f_equal. apply map_eq. intros j.
    rewrite purge_lookup, lookup_delete. unfold is_dir. rewrite Hk. simpl.
    by repeat case_decide.
  - rewrite Hk. do 2 f_equal. apply map_eq. intros j.
    rewrite purge_lookup, map_lookup_filter. unfold is_dir. rewrite Hk. simpl.
    destruct (w !! j) as [v|] eqn:Hj; simpl.
    + case_decide as Heq.
      * rewrite option_guard_False; [done|]. by intros [? _].
      * destruct (under k j) eqn:Hunder.
        -- rewrite option_guard_False; [done|]. by intros [_ ?].
        -- by rewrite option_guard_True.
    + case_decide; [done|]. by destruct (under k j).
  - rewrite lookup_delete_eq. simpl. do 2 f_equal. apply map_eq. intros j.
    rewrite purge_lookup, lookup_delete. unfold is_dir. rewrite Hk. simpl.
    by repeat case_decide.
  - rewrite Hk. simpl. do 2 f_equal. apply map_eq. intros j.
    rewrite purge_lookup. unfold is_dir. rewrite Hk. simpl.
    case_decide; congruence.
Qed.

End ClearFacts.

Section ClearLoop.
Import PyStr PosixPath Posix.
Context (cwd : string) (resolved unreadable : gset string).

Lemma existsb_ext_in {A} (f g : A → bool) (l : list A) :
  (∀ x, x ∈ l → f x = g x) → existsb f l = existsb g l.
Proof.
  induction l as [|x l IH]; intros Hfg; [done|]. simpl.
  rewrite (Hfg x) by left. f_equal. apply IH. intros y Hy. apply Hfg. by right.
Qed.

Lemma existsb_false {A} (f : A → bool) (l : list A) :
  existsb f l = false ↔ ∀ x, x ∈ l → f x = false.
Proof.
  induction l as [|x l IH]; simpl.
  - split; [intros _ x Hx; by apply elem_of_nil in Hx | done].
  - rewrite orb_false_iff, IH. split.
    + intros [Hx Hl] y Hy. apply elem_of_cons in Hy as [->|Hy]; auto.
    + intros Hall. split; [apply Hall; by left|].
      intros y Hy. apply Hall. by right.
Qed.

Lemma hit_purge (root name name' j : string) (w : disk) :
  child_ok cwd root name → child_ok cwd root name' → name ≠ name' →
  hit (purge (with_sep root +:+ name) w) root j name' = hit w root j name'.
Proof.
  intros (Hne & Hsep & _) (Hne' & Hsep' & _) Hdiff.
  unfold hit. rewrite (join_child root name') by done.
  unfold is_dir at 1. rewrite purge_lookup.
  rewrite decide_False; [|by intros ?%(inj (String.app _))].
  by rewrite child_not_under, andb_false_r by done.
Qed.

Lemma clear_loop (root : string) (log : list (log_level * string))
    (names : list string) (w : disk) :
  NoDup names → (∀ name, name ∈ names → child_ok cwd root name) →
  ∃ w',
    for_each names
      (λ path,
         if startswith path ".pyre" then mret tt
         else remove_if_exists (posix cwd resolved unreadable)
                (join root path))
      (Process w log) = (inr tt, Process w' log) ∧
    ∀ j, w' !! j = if existsb (hit w root j) names then None else w !! j.
Proof.
  intros Hnodup. revert w.
  induction Hnodup as [|name names Hnotin Hnodup IH]; intros w Hok.
  - exists w. by split.
  - assert (Hname : child_ok cwd root name) by (apply Hok; by left).
    assert (Hrest : ∀ name', name' ∈ names → child_ok cwd root name').
    { intros name' Hin. apply Hok. by right. }
    simpl. unfold mbind at 1. unfold M_bind at 1. unfold hit at 1.
    destruct (startswith name ".pyre") eqn:Hreserved.
    + destruct (IH w Hrest) as (w' & Hrun & Hlookup).
      exists w'. split; [done|]. intros j. by rewrite Hlookup.
    + destruct Hname as (Hne & Hsep & Habs).
      rewrite remove_if_exists_posix, join_child, Habs by done.
      destruct (IH (purge (with_sep root +:+ name) w) Hrest)
        as (w' & Hrun & Hlookup).
      exists w'. split; [done|]. intros j. rewrite Hlookup.
      rewrite (existsb_ext_in _ (hit w root j)).
      2:{ intros name' Hin. apply hit_purge; [done | by apply Hrest |].
          intros ->. done. }
      rewrite purge_lookup. simpl.
      destruct (existsb (hit w root j) names); [by rewrite orb_true_r|].
      rewrite orb_false_r.
      destruct (String.eqb_spec j (with_sep root +:+ name)) as [->|Hj].
      * by rewrite decide_True.
      * rewrite decide_False by done. simpl.
        by destruct (is_dir w _ && under _ j).
Qed.

Lemma clear_disk_lookup (w : disk) (root j : string) :
  clear_disk w root !! j = if cleared w root j then None else w !! j.
Proof.
  unfold clear_disk. rewrite map_lookup_filter.
  destruct (w !! j) as [v|]; simpl; [|by destruct (cleared w root j)].
  destruct (cleared w root j) eqn:Hc.
  - by rewrite option_guard_False.
  - by rewrite option_guard_True.
Qed.

Lemma children_ok (w : disk) (root name : string) :
  (∀ key, is_Some (w !! key) → abspath cwd key = key) →
  name ∈ children w root → child_ok cwd root name.
Proof.
  intros Hwf (Hkey & Hne & Hsep)%elem_of_children.
  split; [done|]. split; [done|]. by apply Hwf.
Qed.

Lemma clear_posix (self : SharedAnalysisDirectory) (w : disk)
    (log : list (log_level * string)) :
  realpath cwd w (get_root self) = get_root self →
  w !! get_root self = Some Dir →
  (∀ key, is_Some (w !! key) → abspath cwd key = key) →
  _clear (posix cwd resolved unreadable) self (Process w log) =
  (inr tt, Process (clear_disk w (get_root self)) log).
Proof.
  intros Hreal Hdir Hwf. unfold _clear.
  unfold mbind at 1. unfold M_bind at 1. unfold query. simpl.
  unfold os_listdir. rewrite Hreal, Hdir.
  destruct (clear_loop (get_root self) log (children w (get_root self)) w)
    as (w' & Hrun & Hlookup).
  { apply NoDup_children. }
  { intros name. by apply children_ok. }
  rewrite Hrun. do 2 f_equal. apply map_eq. intros j.
  by rewrite Hlookup, clear_disk_lookup.
Qed.

Lemma cleared_reserved_only (w : disk) (root : string) :
  (∀ name, name ∈ children w root → startswith name ".pyre" = true) →
  clear_disk w root = w.
Proof.
  intros Hall. apply map_eq. intros j. rewrite clear_disk_lookup.
  replace (cleared w root j) with false; [done|].
  symmetry. apply existsb_false. intros name Hin.
  unfold hit. by rewrite (Hall name Hin).
Qed.

Lemma cleared_child (w : disk) (root name : string) :
  name ∈ children w root →
  cleared w root (join root name) = negb (startswith name ".pyre").
Proof.
  intros Hin. pose proof Hin as (Hkey & Hne & Hsep)%elem_of_children.
  destruct (startswith name ".pyre") eqn:Hreserved; simpl.
  - apply existsb_false. intros name' Hin'.
    pose proof Hin' as (_ & Hne' & Hsep')%elem_of_children.
    unfold hit. destruct (startswith name' ".pyre") eqn:Hr'; [done|]. simpl.
    rewrite !join_child by done.
    rewrite child_not_under, andb_false_r, orb_false_r by done.
    apply String.eqb_neq. intros ?%(inj (String.app _)). congruence.
  - apply existsb_exists. exists name. split; [by apply list_elem_of_In|].
    unfold hit. by rewrite Hreserved, String.eqb_refl.
Qed.

Lemma children_clear_disk (w : disk) (root name : string) :
  name ∈ children (clear_disk w root) root ↔
  name ∈ children w root ∧ startswith name ".pyre" = true.
Proof.
  rewrite !elem_of_children. split.
  - intros (Hkey & Hne & Hsep).
    assert (Hin : name ∈ children w root).
    { apply elem_of_children. split; [|done].
      rewrite clear_disk_lookup in Hkey.
      by destruct (cleared w root _); [destruct Hkey|]. }
    split; [by apply elem_of_children|].
    rewrite <- join_child, clear_disk_lookup, cleared_child in Hkey by done.
    destruct (startswith name ".pyre"); [done | by destruct Hkey].
  - intros [(Hkey & Hne & Hsep) Hreserved]. split; [|done].
    rewrite <- join_child, clear_disk_lookup, cleared_child by
      (done || by apply elem_of_children).
    rewrite Hreserved. simpl. by rewrite join_child.
Qed.

Lemma clear_disk_root (w : disk) (root : string) :
  clear_disk w root !! root = w !! root.
Proof.
  rewrite clear_disk_lookup.
  replace (cleared w root root) with false; [done|].
  symmetry. apply existsb_false.
  intros name (_ & Hne & Hsep)%elem_of_children.
  unfold hit. rewrite join_child by done.
  destruct (root_not_under_child root name Hne Hsep) as [Hroot ->].
  rewrite andb_false_r, orb_false_r.
  apply String.eqb_neq in Hroot. rewrite Hroot. by rewrite andb_false_r.
Qed.

End ClearLoop.

(** C5.  On a disk keyed by normalized paths whose analysis-directory
    root is a directory, [_clear] returns and leaves the disk
    [clear_disk]: each immediate child of the root whose name does not
    begin with [.pyre] is gone, with everything under it if it is a
    directory; each child whose name begins with [.pyre] is as it was;
    any path that is no such child and under none is as it was; the
    children left are the reserved ones; with only reserved children the
    disk is unchanged; [remove_if_exists] on an absent path returns
    without a change; and clearing once more changes nothing. *)
Theorem clear_removes_unreserved_children
    (cwd : string) (resolved unreadable : gset string)
    (self : SharedAnalysisDirectory) (w : Posix.disk)
    (log : list (log_level * string)) :
  Posix.realpath cwd w (get_root self) = get_root self →
  w !! get_root self = Some Posix.Dir →
  (∀ key, is_Some (w !! key) → PosixPath.abspath cwd key = key) →
  let os := Posix.posix cwd resolved unreadable in
  let root := get_root self in
  let w' := Posix.clear_disk w root in
  _clear os self (Process w log) = (inr tt, Process w' log) ∧
  (∀ name, name ∈ Posix.children w root →
     w' !! PosixPath.join root name =
     if PyStr.startswith name ".pyre" then w !! PosixPath.join root name
     else None) ∧
  (∀ path,
     (∀ name, name ∈ Posix.children w root →
        PyStr.startswith name ".pyre" = false →
        path ≠ PosixPath.join root name ∧
        Posix.is_dir w (PosixPath.join root name) &&
        Posix.under (PosixPath.join root name) path = false) →
     w' !! path = w !! path) ∧
  (∀ name, name ∈ Posix.children w' root ↔
           name ∈ Posix.children w root ∧
           PyStr.startswith name ".pyre" = true) ∧
  ((∀ name, name ∈ Posix.children w root →
            PyStr.startswith name ".pyre" = true) → w' = w) ∧
  (∀ path w0 log0,
     w0 !! PosixPath.abspath cwd path = None →
     remove_if_exists os path (Process w0 log0) = (inr tt, Process w0 log0)) ∧
  (Posix.realpath cwd w' root = root →
   _clear os self (Process w' log) = (inr tt, Process w' log)).
Proof.
  intros Hreal Hdir Hwf os root w'. subst os root w'.
  split; [by apply clear_posix|].
  split; [|split; [|split; [|split; [|split]]]].
  - intros name Hin.
    rewrite clear_disk_lookup, cleared_child by done.
    by destruct (PyStr.startswith name ".pyre").
  - intros path Hfree. rewrite clear_disk_lookup.
    replace (Posix.cleared w (get_root self) path) with false; [done|].
    symmetry. apply existsb_false. intros name Hin. unfold Posix.hit.
    destruct (PyStr.startswith name ".pyre") eqn:Hreserved; [done|].
    destruct (Hfree name Hin Hreserved) as [Hne ->].
    apply String.eqb_neq in Hne. by rewrite Hne.
  - intros name. apply children_clear_disk.
  - apply cleared_reserved_only.
  - intros path w0 log0 Habsent.
    rewrite remove_if_exists_posix. do 2 f_equal. apply map_eq. intros j.
    rewrite purge_lookup. unfold Posix.is_dir. rewrite Habsent. simpl.
    case_decide; congruence.
  - intros Hreal'.
    rewrite clear_posix; [| done | | ].
    + do 2 f_equal. apply cleared_reserved_only.
      intros name Hin. by apply children_clear_disk in Hin as [_ ?].
    + by rewrite clear_disk_root.
    + intros key Hkey. apply Hwf.
      rewrite clear_disk_lookup in Hkey.
      by destruct (Posix.cleared w (get_root self) key); [destruct Hkey|].
Qed.

Section ClearWitness.
Import Posix Examples.

Lemma used_root_normalized (key : string) :
  is_Some (used_root !! key) → PosixPath.abspath "/" key = key.
Proof.
  intros Hkey.
  assert (Hin : key ∈ (map_to_list used_root).*1).
  { destruct Hkey as [v Hv]. apply list_elem_of_fmap. exists (key, v).
    split; [done|]. by apply elem_of_map_to_list. }
  vm_compute in Hin. elem_cases Hin; by vm_compute.
Qed.

(** C5 at a root left by an earlier run: the lock file and the metadata
    directory stay, the stale links and the other files go. *)
Lemma clear_removes_unreserved_children_witness :
  _clear plain (shared ["/a"] [] [] "/r") (Process used_root []) =
    (inr tt, Process (clear_disk used_root "/r") []) ∧
  map_to_list (clear_disk used_root "/r") ≡ₚ
    [("/", Dir); ("/a", Dir); ("/a/m.py", File 5);
     ("/r", Dir); ("/r/.pyre.lock", File 0); ("/r/.pyre_meta", Dir);
     ("/r/.pyre_meta/x", File 1)].
Proof.
  split.
  - destruct (clear_removes_unreserved_children "/" ∅ ∅
                (shared ["/a"] [] [] "/r") used_root []
                ltac:(by vm_compute) ltac:(by vm_compute)
                used_root_normalized) as [Hrun _].
    exact Hrun.
  - vm_compute. apply NoDup_Permutation.
    + repeat (constructor; [not_in_list|]). constructor.
    + repeat (constructor; [not_in_list|]). constructor.
    + intros x. split; intros Hx; elem_cases Hx; in_list.
Defined.

End ClearWitness.

(** ** Path translation *)

Section Translation.
Context {W : Type} (os : OS W) (w : W).
Import PyStr PosixPath.

Lemma translate_paths_unrelated (paths : gset string)
    (original_directory : string) :
  startswith original_directory (getcwd os) = false →
  translate_paths os w paths original_directory = inr paths.
Proof. intros H. unfold translate_paths. by rewrite H. Qed.

(** [os.path.relpath] never returns the empty string: the test on the
    translation in [translate_paths] never holds. *)
Lemma relpath_not_empty (cwd path start translation : string) :
  relpath cwd path start = Some translation → translation ≠ "".
Proof.
  unfold relpath. destruct (is_empty_str path); [done|].
  set (start_list := nonempty_comps (abspath cwd start)).
  set (path_list := nonempty_comps (abspath cwd path)).
  set (i := common_prefix_len start_list path_list).
  assert (Hcomps : Forall (λ c, c ≠ "")
            (replicate (length start_list - i) ".." ++ drop i path_list)).
  { apply Forall_app. split.
    - apply Forall_replicate. done.
    - apply Forall_drop. unfold path_list, nonempty_comps.
      apply Forall_forall. intros c Hc.
      by apply list_elem_of_filter in Hc as [? _]. }
  destruct (replicate _ _ ++ _) as [|x rest]; [by intros [= <-]|].
  intros [= <-]. inversion Hcomps as [|? ? Hx Hrest]; subst.
  clear Hcomps. revert x Hx.
  induction Hrest as [|y rest Hy Hrest IH]; intros x Hx; [done|].
  unfold join_all. simpl. apply IH.
  unfold join. destruct (startswith y sep); [done|].
  destruct (is_empty_str x || endswith x sep).
  - intros Happ. destruct x; [done|]. by rewrite str_app_cons in Happ.
  - intros Happ. destruct x; [done|]. by rewrite str_app_cons in Happ.
Qed.

End Translation.

(** C7, at the input where the code departs from it.  The working
    directory is [/foo] and [original_directory] is [/foo2], no
    descendant of it, but [/foo] is a prefix of the string [/foo2]:
    [translate_paths] rewrites [a.py] to the real path of
    [../foo2/a.py] where the specification has it return the set
    unchanged. *)
Theorem translate_paths_sibling_directory {W} (os : OS W) (w : W) :
  getcwd os = "/foo" →
  path_exists os w "../foo2/a.py" = true →
  path_realpath os w "../foo2/a.py" = "/foo2/a.py" →
  PosixPath.relpath (getcwd os) "/foo2" (getcwd os) = Some "../foo2" ∧
  translate_paths os w {["a.py"]} "/foo2" = inr {["/foo2/a.py"]} ∧
  translate_paths os w {["a.py"]} "/foo2" ≠ inr {["a.py"]}.
Proof.
  intros Hcwd Hexists Hreal.
  assert (Hrun : translate_paths os w {["a.py"]} "/foo2"
                 = inr {["/foo2/a.py"]}).
  { unfold translate_paths, os_relpath. rewrite Hcwd. simpl.
    rewrite set_map_singleton_L. unfold translate_path. simpl.
    change (PosixPath.join (PosixPath.join ".." "foo2") "a.py")
      with "../foo2/a.py".
    by rewrite Hexists, Hreal. }
  split; [by rewrite Hcwd|]. split; [done|].
  rewrite Hrun. intros Heq%(inj inr).
  assert (Hin : "/foo2/a.py" ∈ ({["a.py"]} : gset string)).
  { rewrite <- Heq. by apply elem_of_singleton. }
  by apply elem_of_singleton in Hin.
Qed.

Section TranslationWitness.
Import Posix Examples.

(** C7's failing input on a disk. *)
Lemma translate_paths_sibling_directory_witness :
  PosixPath.relpath (getcwd in_foo) "/foo2" (getcwd in_foo) = Some "../foo2" ∧
  translate_paths in_foo siblings {["a.py"]} "/foo2" = inr {["/foo2/a.py"]} ∧
  translate_paths in_foo siblings {["a.py"]} "/foo2" ≠ inr {["a.py"]}.
Proof.
  apply (translate_paths_sibling_directory in_foo siblings).
  - reflexivity.
  - by vm_compute.
  - by vm_compute.
Defined.

End TranslationWitness.

(** ** The search for the root *)

Section FindRoot.
Context {W : Type} (os : OS W) (w : W).
Import PyStr PosixPath.

Lemma find_root_loop_stuck (fuel : nat) (target_file : string) :
  path_isfile os w (join "//" target_file) = false →
  find_root_loop os fuel w "//" target_file = None.
Proof.
  intros Hfile. induction fuel as [|fuel IH]; [done|].
  simpl. rewrite Hfile.
  change (dirname "//") with "//". apply IH.
Qed.

End FindRoot.

(** ** The walk from a directory with one leading slash *)

Section UpwardWalk.
Import PyStr PosixPath Posix.

Lemma prefixes_snoc (comps : list string) (comp : string) :
  prefixes (comps ++ [comp]) = prefixes comps ++ [comps ++ [comp]].
Proof.
  induction comps as [|c comps IH]; [done|].
  simpl. rewrite IH, map_app. done.
Qed.

Lemma join_with_snoc (comps : list string) (c comp : string) :
  join_with sep ((c :: comps) ++ [comp]) =
  (join_with sep (c :: comps) +:+ sep) +:+ comp.
Proof.
  revert c. induction comps as [|c' comps IH]; intros c.
  - simpl. by rewrite str_app_assoc.
  - change (join_with sep ((c :: c' :: comps) ++ [comp]))
      with (c +:+ sep +:+ join_with sep ((c' :: comps) ++ [comp])).
    rewrite IH.
    change (join_with sep (c :: c' :: comps))
      with (c +:+ sep +:+ join_with sep (c' :: comps)).
    by rewrite !str_app_assoc.
Qed.

Lemma head_upto_sep_name (name : string) :
  has_sep name = false → head_upto_sep name = "".
Proof.
  induction name as [|a name IH]; [done|]. simpl.
  intros [Ha Hname]%orb_false_elim. by rewrite (IH Hname), Ha.
Qed.

Lemma head_upto_sep_app (pre name : string) :
  has_sep name = false →
  head_upto_sep ((pre +:+ sep) +:+ name) = pre +:+ sep.
Proof.
  intros Hname. induction pre as [|a pre IH].
  - change (("" +:+ sep) +:+ name) with (String sep_char name).
    simpl. by rewrite head_upto_sep_name.
  - rewrite !str_app_cons. simpl. rewrite IH.
    by destruct (pre +:+ sep) eqn:Hpre; [destruct pre|].
Qed.

Lemma rstrip_char_sep (pre : string) :
  rstrip_char sep_char (pre +:+ sep) = rstrip_char sep_char pre.
Proof.
  induction pre as [|a pre IH]; [done|].
  rewrite str_app_cons. simpl. by rewrite IH.
Qed.

Lemma rstrip_char_id (path : string) :
  endswith path sep = false → rstrip_char sep_char path = path.
Proof.
  induction path as [|a path IH]; [done|].
  rewrite endswith_cons. intros [Heq Hends]%orb_false_elim.
  simpl. rewrite (IH Hends).
  destruct path as [|b path]; [|done]. simpl.
  destruct (Ascii.eqb_spec a sep_char) as [->|]; [done|done].
Qed.

Lemma rooted_snoc (comps : list string) (comp : string) :
  rooted (comps ++ [comp]) =
  match comps with
  | [] => sep +:+ comp
  | _ => (rooted comps +:+ sep) +:+ comp
  end.
Proof.
  unfold rooted. destruct comps as [|c comps]; [done|].
  rewrite join_with_snoc. by rewrite !str_app_assoc.
Qed.

Lemma rooted_endswith (comps : list string) :
  comps ≠ [] → Forall component comps → endswith (rooted comps) sep = false.
Proof.
  intros Hne Hcomps.
  destruct comps as [|c comps] using rev_ind; [done|]. clear IHcomps.
  apply Forall_app in Hcomps as [_ Hc].
  inversion Hc as [|? ? [Hc_ne Hc_sep] _]; subst.
  rewrite rooted_snoc. destruct comps; by apply endswith_sep_name.
Qed.

Lemma dirname_rooted_snoc (comps : list string) (comp : string) :
  Forall component comps → component comp →
  dirname (rooted (comps ++ [comp])) = rooted comps.
Proof.
  intros Hcomps [Hne Hsep]. rewrite rooted_snoc. unfold dirname.
  destruct comps as [|c comps].
  - change (sep +:+ comp) with (("" +:+ sep) +:+ comp).
    by rewrite head_upto_sep_app.
  - rewrite head_upto_sep_app, rstrip_char_sep by done.
    rewrite rstrip_char_id by by apply rooted_endswith.
    done.
Qed.

Lemma rooted_not_root (comps : list string) (comp : string) :
  component comp → String.eqb (rooted (comps ++ [comp])) "/" = false.
Proof.
  intros [Hne _]. apply String.eqb_neq. intros Heq.
  apply (f_equal String.length) in Heq.
  rewrite rooted_snoc in Heq.
  destruct comp; [done|].
  destruct comps; rewrite ?str_length_app in Heq; simpl in Heq; lia.
Qed.

Context {W : Type} (os : OS W) (w : W).

Lemma find_root_loop_S (fuel : nat) (current target_file : string) :
  find_root_loop os (S fuel) w current target_file =
  if String.eqb current "/" then Some None
  else if path_isfile os w (join current target_file) then Some (Some current)
  else find_root_loop os fuel w (dirname current) target_file.
Proof. reflexivity. Qed.

(** From a normalized path with one leading slash the loop of
    [find_root] ends within one iteration per component and one more,
    with the first directory on the upward walk that holds the marker,
    if there is one. *)
Lemma find_root_loop_upward (comps : list string) (target_file : string)
    (fuel : nat) :
  Forall component comps → (length comps < fuel)%nat →
  find_root_loop os fuel w (rooted comps) target_file =
  Some (List.find (λ directory, path_isfile os w (join directory target_file))
          (upward comps)).
Proof.
  revert fuel. induction comps as [|comp comps IH] using rev_ind;
    intros fuel Hcomps Hfuel.
  - destruct fuel; [simpl in Hfuel; lia | done].
  - apply Forall_app in Hcomps as [Hcomps Hcomp].
    inversion Hcomp as [|? ? Hc _]; subst.
    rewrite length_app in Hfuel. simpl in Hfuel.
    destruct fuel as [|fuel]; [lia|].
    unfold upward. rewrite prefixes_snoc, reverse_snoc, fmap_cons.
    rewrite find_root_loop_S, rooted_not_root by done.
    cbn [List.find].
    destruct (path_isfile os w _); [done|].
    rewrite dirname_rooted_snoc by done.
    apply IH; [done | lia].
Qed.

(** [find_root] from a directory whose absolute path is such a path. *)
Lemma find_root_upward (original_directory target_file : string)
    (comps : list string) (fuel : nat) :
  abspath (getcwd os) original_directory = rooted comps →
  Forall component comps → (length comps < fuel)%nat →
  find_root os fuel w original_directory target_file =
  Some (List.find (λ directory, path_isfile os w (join directory target_file))
          (upward comps)).
Proof.
  intros Habs Hcomps Hfuel. unfold find_root. rewrite Habs.
  by apply find_root_loop_upward.
Qed.

End UpwardWalk.

(** C8, at the input where the code departs from it.  From a starting
    directory with two leading slashes the walk reaches [//], which is
    not the string [/] and is its own [dirname]: when neither [//a] nor
    [//] holds the marker the loop of [find_root] does not end, whatever
    the number of iterations allowed. *)
Theorem find_root_double_slash {W} (os : OS W) (w : W)
    (target_file : string) (fuel : nat) :
  path_isfile os w (PosixPath.join "//a" target_file) = false →
  path_isfile os w (PosixPath.join "//" target_file) = false →
  PosixPath.dirname "//" = "//" ∧
  find_root os fuel w "//a" target_file = None.
Proof.
  intros Hstart Hroot. split; [done|].
  unfold find_root.
  change (PosixPath.abspath (getcwd os) "//a") with "//a".
  destruct fuel as [|fuel]; [done|]. simpl. rewrite Hstart.
  change (PosixPath.dirname "//a") with "//".
  by apply find_root_loop_stuck.
Qed.

Section FindRootWitness.
Import Posix Examples.

(** C8's failing input on a disk without the marker, with a thousand
    iterations allowed. *)
Lemma find_root_double_slash_witness :
  PosixPath.dirname "//" = "//" ∧
  find_root plain 1000 two_trees "//a" ".pyre_configuration" = None.
Proof.
  apply (find_root_double_slash plain two_trees ".pyre_configuration").
  - by vm_compute.
  - by vm_compute.
Defined.

(** From a starting directory with one leading slash the same walk ends. *)
Example find_root_single_slash :
  find_root plain 3 two_trees "/a/pkg" ".pyre_configuration" = Some None ∧
  find_root plain 3 two_trees "/a/pkg" "mod.py" = Some (Some "/a/pkg").
Proof. by vm_compute. Qed.

End FindRootWitness.

(** ** Hashes of the whitelist specifications *)

Section WhitelistHash.
Import GeneratorSpecifications.
Context (hash_None : Z) (hash_str : string → Z) (hash_tuple : list Z → Z).

Lemma set_eqb_elements (a b : pyset) :
  set_eqb a b = true ↔ ∀ x, x ∈ a ↔ x ∈ b.
Proof.
  unfold set_eqb. rewrite andb_true_iff, !forallb_forall. split.
  - intros [Hab Hba] x. split; intros Hx.
    + apply list_elem_of_In, Hab, bool_decide_eq_true in Hx. done.
    + apply list_elem_of_In, Hba, bool_decide_eq_true in Hx. done.
  - intros Hall. split; intros x Hx%list_elem_of_In;
      apply bool_decide_eq_true; by apply Hall.
Qed.

Lemma sorted_canonical (a b : pyset) :
  NoDup a → NoDup b → set_eqb a b = true → sorted a = sorted b.
Proof.
  intros Ha Hb Heq. unfold sorted.
  apply (Sorted_unique String.le).
  - apply (Sorted_merge_sort String.le).
  - apply (Sorted_merge_sort String.le).
  - rewrite !merge_sort_Permutation.
    apply NoDup_Permutation; [done..|]. by apply set_eqb_elements.
Qed.

Lemma hash_strings (l : list string) :
  py_hash hash_None hash_str hash_tuple (VTuple (VStr <$> l)) =
  inr (hash_tuple (hash_str <$> l)).
Proof.
  simpl.
  assert (Hgo : ∀ l,
    (fix go (items : list value) : result (list Z) :=
       match items with
       | [] => inr []
       | item :: rest =>
           h ← py_hash hash_None hash_str hash_tuple item;
           hashes ← go rest; inr (h :: hashes)
       end) (VStr <$> l) = inr (hash_str <$> l)).
  { clear l. induction l as [|x l IH]; [done|].
    rewrite !fmap_cons. rewrite IH. done. }
  by rewrite Hgo.
Qed.

Lemma and_sorted_canonical (x y : option pyset) :
  (∀ a, x = Some a → NoDup a) → (∀ b, y = Some b → NoDup b) →
  field_eqb x y = true →
  and_sorted x = and_sorted y.
Proof.
  intros Hx Hy Heq. destruct x as [a|], y as [b|]; try done.
  simpl in Heq. unfold and_sorted.
  destruct a as [|a0 a], b as [|b0 b]; [done | | |].
  - pose proof (proj1 (set_eqb_elements _ _) Heq b0) as [_ Hb0].
    by apply elem_of_nil in Hb0; [|left].
  - pose proof (proj1 (set_eqb_elements _ _) Heq a0) as [Ha0 _].
    by apply elem_of_nil in Ha0; [|left].
  - by rewrite (sorted_canonical (a0 :: a) (b0 :: b)) by auto.
Qed.

(** Two specifications with equal fields, none of them the empty set,
    have a hash, and the same one, however their sets were built. *)
Lemma whitelist_hash_canonical (a b : WhitelistSpecification) :
  (∀ s, parameter_type a = Some s ∨ parameter_name a = Some s ∨
        parameter_type b = Some s ∨ parameter_name b = Some s →
        NoDup s ∧ s ≠ []) →
  WhitelistSpecification_eqb a b = true →
  ∃ h,
    WhitelistSpecification_hash hash_None hash_str hash_tuple a = inr h ∧
    WhitelistSpecification_hash hash_None hash_str hash_tuple b = inr h.
Proof.
  intros Hsets [Htype Hname]%andb_prop.
  unfold WhitelistSpecification_hash.
  assert (Ht : and_sorted (parameter_type a) = and_sorted (parameter_type b)).
  { apply and_sorted_canonical; [| |done]; intros s Hs; apply Hsets; auto. }
  assert (Hn : and_sorted (parameter_name a) = and_sorted (parameter_name b)).
  { apply and_sorted_canonical; [| |done]; intros s Hs; apply Hsets; auto. }
  rewrite <- Ht, <- Hn.
  assert (Hfield : ∀ x : option pyset,
            (∀ s, x = Some s → s ≠ []) →
            ∃ h, py_hash hash_None hash_str hash_tuple (and_sorted x)
                 = inr h).
  { intros [[|x0 s]|] Hne.
    - by destruct (Hne [] eq_refl).
    - unfold and_sorted. rewrite hash_strings. by eexists.
    - by eexists. }
  destruct (Hfield (parameter_type a)) as [h1 Hh1].
  { intros s Hs. apply Hsets. auto. }
  destruct (Hfield (parameter_name a)) as [h2 Hh2].
  { intros s Hs. apply Hsets. auto. }
  exists (hash_tuple [h1; h2]). simpl in *. by rewrite Hh1, Hh2.
Qed.

End WhitelistHash.

(** C9, at the input where the code departs from it.  A specification
    whose [parameter_type] is the empty set is equal to itself but has
    no hash:
    [x and tuple(sorted(x))] is the empty set itself, and hashing the
    tuple that holds it raises [TypeError]. *)
Theorem whitelist_empty_set_unhashable
    (hash_None : Z) (hash_str : string → Z) (hash_tuple : list Z → Z) :
  let x := {| GeneratorSpecifications.parameter_type := Some [];
              GeneratorSpecifications.parameter_name := None |} in
  GeneratorSpecifications.WhitelistSpecification_eqb x x = true ∧
  GeneratorSpecifications.WhitelistSpecification_hash
    hash_None hash_str hash_tuple x =
  inl (TypeError "unhashable type: 'set'").
Proof. by split. Qed.

(** ** A source directory without source files *)

Section EmptyListing.
Context {W : Type} (os : OS W) (w : W).

(** On the empty path [os.path.relpath] raises before the loop tests the
    path: merging such a directory raises [ValueError]. *)
Lemma merge_into_paths_nothing_found (sd : string) (d : dict) :
  find_paths_with_extensions os w sd ["py"; "pyi"] = inr [""] →
  _merge_into_paths os w sd d = inl (ValueError "no path specified").
Proof.
  intros Hfind. unfold _merge_into_paths, _find_python_paths.
  by rewrite Hfind.
Qed.

End EmptyListing.

Example merge_directory_without_sources :
  _merge_into_paths Examples.in_foo Examples.siblings "/foo" [] =
  inl (ValueError "no path specified").
Proof. by vm_compute. Qed.

(** * Further properties of the code *)

(** ** [find_root] from an ordinary directory *)

Section NormalForm.
Import PyStr PosixPath Posix.

Lemma split_no_sep (s : string) :
  Forall (λ comp, has_sep comp = false) (split sep_char s).
Proof.
  induction s as [|a s IH]; [by repeat constructor|].
  simpl. destruct (Ascii.eqb a sep_char) eqn:Ha.
  - by constructor.
  - destruct (split sep_char s) as [|h t]; inversion IH; subst.
    + by repeat constructor; simpl; rewrite Ha.
    + constructor; [|done]. simpl. by rewrite Ha.
Qed.

Lemma length_split (c : ascii) (s : string) :
  (length (split c s) ≤ S (String.length s))%nat.
Proof.
  induction s as [|a s IH]; [done|]. simpl.
  destruct (Ascii.eqb a c); [simpl; lia|].
  destruct (split c s); simpl in *; lia.
Qed.

Lemma norm_comps_components (initial_slashes : bool)
    (comps acc : list string) :
  Forall (λ comp, has_sep comp = false) comps → Forall component acc →
  Forall component (norm_comps initial_slashes comps acc).
Proof.
  intros Hcomps. revert acc.
  induction Hcomps as [|comp comps Hcomp Hcomps IH]; intros acc Hacc.
  - simpl. by apply Forall_rev.
  - simpl. destruct (String.eqb_spec comp "") as [->|Hne]; [by apply IH|].
    simpl. destruct (String.eqb comp "."); [by apply IH|].
    assert (Hpush : Forall component (comp :: acc)) by by constructor.
    destruct (String.eqb comp ".."); simpl; [|by apply IH].
    destruct acc as [|last acc']; [by destruct initial_slashes; apply IH|].
    destruct (String.eqb last ".."); [by apply IH|].
    apply IH. by inversion Hacc.
Qed.

Lemma length_norm_comps (initial_slashes : bool) (comps acc : list string) :
  (length (norm_comps initial_slashes comps acc)
   ≤ length comps + length acc)%nat.
Proof.
  revert acc. induction comps as [|comp comps IH]; intros acc.
  - simpl. by rewrite length_rev.
  - simpl. destruct (String.eqb comp "" || String.eqb comp ".").
    + specialize (IH acc). lia.
    + destruct (negb (String.eqb comp "..")).
      * specialize (IH (comp :: acc)). simpl in IH. lia.
      * destruct acc as [|last acc'].
        -- destruct initial_slashes;
             [specialize (IH []) | specialize (IH [comp])]; simpl in IH; lia.
        -- destruct (String.eqb last "..").
           ++ specialize (IH (comp :: last :: acc')). simpl in *. lia.
           ++ specialize (IH acc'). simpl. lia.
Qed.

(** [normpath] of a path with one leading slash, or more than two. *)
Lemma normpath_rooted (path : string) :
  startswith path "/" = true →
  startswith path "//" && negb (startswith path "///") = false →
  normpath path = rooted (norm_comps true (split sep_char path) []).
Proof.
  intros Habs Hdouble.
  assert (Hempty : is_empty_str path = false) by by destruct path.
  unfold normpath. rewrite Hempty.
  change (startswith path sep) with (startswith path "/").
  rewrite Habs, Hdouble. done.
Qed.

End NormalForm.

(** X1.  From every starting directory whose absolute path does not
    begin with exactly two slashes, [find_root] terminates: the absolute
    path is a root-relative list of components, the loop ends within one
    iteration per component and one more, and the result is the first
    directory on the upward walk, the root [/] excluded, that holds the
    marker file, or [None] if there is none. *)
Theorem find_root_terminates {W} (os : OS W) (w : W)
    (original_directory target_file : string) :
  let start :=
    if PosixPath.isabs original_directory then original_directory
    else PosixPath.join (getcwd os) original_directory in
  PyStr.startswith start "/" = true →
  PyStr.startswith start "//" && negb (PyStr.startswith start "///") = false →
  ∃ comps,
    PosixPath.abspath (getcwd os) original_directory = rooted comps ∧
    Forall component comps ∧
    (length comps ≤ S (String.length start))%nat ∧
    ∀ fuel, (length comps < fuel)%nat →
      find_root os fuel w original_directory target_file =
      Some (List.find
              (λ directory,
                 path_isfile os w (PosixPath.join directory target_file))
              (upward comps)).
Proof.
  intros start Habs Hdouble.
  assert (Hnorm : PosixPath.abspath (getcwd os) original_directory =
                  PosixPath.normpath start).
  { unfold PosixPath.abspath, start.
    by destruct (PosixPath.isabs original_directory). }
  exists (PosixPath.norm_comps true
            (PyStr.split PosixPath.sep_char start) []).
  assert (Hcomps : Forall component
            (PosixPath.norm_comps true
               (PyStr.split PosixPath.sep_char start) [])).
  { apply norm_comps_components; [apply split_no_sep | constructor]. }
  split; [by rewrite Hnorm, normpath_rooted|]. split; [done|]. split.
  - pose proof (length_norm_comps true
                  (PyStr.split PosixPath.sep_char start) []) as Hlen.
    pose proof (length_split PosixPath.sep_char start). simpl in Hlen. lia.
  - intros fuel Hfuel. apply find_root_upward; [|done..].
    by rewrite Hnorm, normpath_rooted.
Qed.

Section FindRootTerminatesWitness.
Import Posix Examples.

(** X1 from [/a/pkg] on the disk [two_trees]. *)
Lemma find_root_terminates_witness :
  ∃ comps,
    PosixPath.abspath (getcwd plain) "/a/pkg" = rooted comps ∧
    Forall component comps ∧
    (length comps ≤ S (String.length "/a/pkg"))%nat ∧
    ∀ fuel, (length comps < fuel)%nat →
      find_root plain fuel two_trees "/a/pkg" "mod.py" =
      Some (List.find
              (λ directory,
                 path_isfile plain two_trees (PosixPath.join directory "mod.py"))
              (upward comps)).
Proof.
  apply (find_root_terminates plain two_trees "/a/pkg" "mod.py").
  - reflexivity.
  - reflexivity.
Defined.

End FindRootTerminatesWitness.

(** ** What [translate_paths] rewrites *)

Section TranslationFacts.
Context {W : Type} (os : OS W) (w : W).
Import PyStr PosixPath.

Lemma common_prefix_len_refl (l : list string) :
  common_prefix_len l l = length l.
Proof.
  induction l as [|x l IH]; [done|]. simpl. by rewrite String.eqb_refl, IH.
Qed.

Lemma relpath_self (cwd path : string) :
  path ≠ "" → relpath cwd path path = Some ".".
Proof.
  intros Hpath. unfold relpath.
  destruct path as [|a path]; [done|]. simpl is_empty_str. cbv iota.
  by rewrite common_prefix_len_refl, Nat.sub_diag, drop_all.
Qed.

Lemma set_map_fixed (f : string → string) (X : gset string) :
  (∀ x, x ∈ X → f x = x) → set_map f X = X.
Proof.
  intros Hfix. apply set_eq. intros y. rewrite elem_of_map. split.
  - intros (x & -> & Hx). by rewrite Hfix.
  - intros Hy. exists y. by rewrite Hfix.
Qed.

Lemma startswith_empty (p : string) : startswith "" p = true → p = "".
Proof. intros [rest Hrest]%startswith_iff. by destruct p. Qed.

End TranslationFacts.

(** X2.  Once [original_directory] starts with the working directory,
    every path of the set goes through [translate_path] with the relative
    path from the working directory to [original_directory]: that
    relative path is never empty, so the test for an empty translation
    never returns the set as it is.  When the two directories are the
    same the translation is [.]. *)
Theorem translate_paths_always_translates {W} (os : OS W) (w : W)
    (paths : gset string) (original_directory : string) :
  original_directory ≠ "" →
  PyStr.startswith original_directory (getcwd os) = true →
  ∃ translation,
    PosixPath.relpath (getcwd os) original_directory (getcwd os)
      = Some translation ∧
    translation ≠ "" ∧
    (original_directory = getcwd os → translation = ".") ∧
    translate_paths os w paths original_directory =
      inr (set_map (translate_path os w translation) paths).
Proof.
  intros Hne Hprefix.
  destruct (relpath_nonempty (getcwd os) original_directory (getcwd os) Hne)
    as [translation Hrel].
  exists translation. split; [done|].
  assert (Hnonempty : translation ≠ "") by by eapply relpath_not_empty.
  split; [done|]. split.
  - intros Heq. rewrite <- Heq in Hrel.
    rewrite relpath_self in Hrel by done. congruence.
  - unfold translate_paths, os_relpath. rewrite Hprefix, Hrel. simpl.
    by destruct translation.
Qed.

(** X3.  [translate_paths] never changes an absolute path, nor a relative
    path that no directory holds: a set of such paths is returned as it
    is, whatever [original_directory]. *)
Theorem translate_paths_keeps_absolute {W} (os : OS W) (w : W)
    (paths : gset string) (original_directory : string) :
  getcwd os ≠ "" →
  (∀ path, path ∈ paths →
     PosixPath.isabs path = true ∨
     ∀ root, path_exists os w (PosixPath.join root path) = false) →
  translate_paths os w paths original_directory = inr paths.
Proof.
  intros Hcwd Hpaths. unfold translate_paths.
  destruct (PyStr.startswith original_directory (getcwd os)) eqn:Hprefix;
    [|done].
  simpl. unfold os_relpath.
  destruct (relpath_nonempty (getcwd os) original_directory (getcwd os))
    as [translation Hrel].
  { intros ->. by apply startswith_empty in Hprefix. }
  rewrite Hrel. simpl.
  destruct (PyStr.is_empty_str translation); [done|].
  unfold mret, result_ret. f_equal. apply set_map_fixed.
  intros path Hpath. unfold translate_path.
  destruct (Hpaths path Hpath) as [-> | Hexists]; [done|].
  destruct (PosixPath.isabs path); [done|]. by rewrite Hexists.
Qed.

Section TranslationFactsWitness.
Import Posix Examples.

(** X2 in [/foo], for [original_directory] the directory [/foo] itself. *)
Lemma translate_paths_always_translates_witness :
  ∃ translation,
    PosixPath.relpath (getcwd in_foo) "/foo" (getcwd in_foo)
      = Some translation ∧
    translation ≠ "" ∧
    ("/foo" = getcwd in_foo → translation = ".") ∧
    translate_paths in_foo siblings {["a.py"]} "/foo" =
      inr (set_map (translate_path in_foo siblings translation)
             ({["a.py"]} : gset string)).
Proof.
  apply (translate_paths_always_translates in_foo siblings {["a.py"]} "/foo").
  - discriminate.
  - reflexivity.
Defined.

(** X3 in [/foo], for an absolute path. *)
Lemma translate_paths_keeps_absolute_witness :
  translate_paths in_foo siblings {["/foo2/a.py"]} "/foo/sub" =
  inr {["/foo2/a.py"]}.
Proof.
  apply (translate_paths_keeps_absolute in_foo siblings).
  - discriminate.
  - intros path ->%elem_of_singleton. by left.
Defined.

End TranslationFactsWitness.

(** ** The reverse index *)

Section ReverseIndex.
Context {W : Type} (os : OS W).

Lemma index_get (w : W) (links : list string) (d : dict) (real : string) :
  PyDict.get
    (fold_left
       (λ symbolic_links symbolic_link,
          PyDict.set symbolic_links
            (path_realpath os w symbolic_link) symbolic_link)
       links d) real =
  match List.find (λ link, String.eqb (path_realpath os w link) real)
          (reverse links) with
  | Some link => Some link
  | None => PyDict.get d real
  end.
Proof.
  revert d. induction links as [|link links IH]; intros d; [done|].
  simpl. rewrite IH, reverse_cons, find_app.
  destruct (List.find _ (reverse links)); [done|].
  simpl. rewrite get_set.
  destruct (String.eqb_spec (path_realpath os w link) real).
  - by rewrite decide_True.
  - by rewrite decide_False.
Qed.

Lemma compute_mapping_listed (directory : string) (extensions links : list string)
    (s : process W) :
  find_paths_with_extensions os (world s) directory extensions = inr links →
  _compute_symbolic_link_mapping os directory extensions s =
  (inr (fold_left
          (λ symbolic_links symbolic_link,
             PyDict.set symbolic_links
               (path_realpath os (world s) symbolic_link) symbolic_link)
          links []), s).
Proof.
  intros Hfind.
  unfold _compute_symbolic_link_mapping, try_except, query, mbind, M_bind.
  by rewrite Hfind.
Qed.

End ReverseIndex.

(** X4.  When the File Lister succeeds, [_compute_symbolic_link_mapping]
    returns, without logging, the index that sends a real path to the
    last listed link that resolves to it, and that has no entry for a
    path to which no listed link resolves. *)
Theorem reverse_index_lookup {W} (os : OS W) (directory : string)
    (extensions links : list string) (s : process W) :
  find_paths_with_extensions os (world s) directory extensions = inr links →
  ∃ index,
    _compute_symbolic_link_mapping os directory extensions s = (inr index, s) ∧
    ∀ real,
      PyDict.get index real =
      List.find (λ link, String.eqb (path_realpath os (world s) link) real)
        (reverse links).
Proof.
  intros Hfind. eexists. split; [by apply compute_mapping_listed|].
  intros real. rewrite index_get. by destruct (List.find _ _).
Qed.

(** X5.  An object built by [__init__] over a root whose listing holds
    the link [link], the only listed link with its real path, answers a
    change of that real file with the link: [process_updated_files] maps
    the real path to [link]. *)
Theorem changed_file_maps_to_link {W} (os : OS W)
    (source_directories targets : list string)
    (original_directory : option string) (filter_paths : option (list string))
    (local_configuration_root : option string)
    (extensions search_path : option (list string))
    (isolate build prompt : bool) (s : process W)
    (links : list string) (link : string) :
  find_paths_with_extensions os (world s)
    (get_root_uncached os (world s) local_configuration_root isolate)
    (or_list extensions ["py"; "pyi"]) = inr links →
  link ∈ links →
  (∀ other, other ∈ links →
     path_realpath os (world s) other = path_realpath os (world s) link →
     other = link) →
  ∃ self,
    SharedAnalysisDirectory_init os source_directories targets
      original_directory filter_paths local_configuration_root
      extensions search_path isolate build prompt s = (inr self, s) ∧
    get_root self =
      get_root_uncached os (world s) local_configuration_root isolate ∧
    process_updated_files os self [path_realpath os (world s) link] = [link].
Proof.
  intros Hfind Hlink Honly.
  eexists. split; [|split].
  - unfold SharedAnalysisDirectory_init.
    unfold mbind at 1. unfold M_bind at 1. unfold query at 1. simpl.
    unfold mbind at 1. unfold M_bind at 1.
    rewrite (compute_mapping_listed os _ _ links) by done. done.
  - done.
  - unfold process_updated_files. simpl. rewrite index_get.
    destruct (List.find _ (reverse links)) as [other|] eqn:Hother.
    + apply find_Some in Hother as [Hin Heq].
      apply String.eqb_eq in Heq. rewrite elem_of_reverse in Hin.
      by rewrite (Honly other Hin Heq).
    + apply find_None in Hother. rewrite Forall_forall in Hother.
      specialize (Hother link). rewrite String.eqb_refl in Hother.
      discriminate Hother. by rewrite elem_of_reverse.
Qed.

Section ReverseIndexWitness.
Import Posix Examples.

Lemma used_root_listing :
  find_paths_with_extensions plain used_root "/r" ["py"; "pyi"] =
  inr ["/r/old/m.py"; "/r/gone.py"].
Proof. by vm_compute. Qed.

(** X4 over the root left by an earlier run. *)
Lemma reverse_index_lookup_witness :
  ∃ index,
    _compute_symbolic_link_mapping plain "/r" ["py"; "pyi"]
      (Process used_root []) = (inr index, Process used_root []) ∧
    ∀ real,
      PyDict.get index real =
      List.find (λ link, String.eqb (path_realpath plain used_root link) real)
        (reverse ["/r/old/m.py"; "/r/gone.py"]).
Proof.
  apply (reverse_index_lookup plain "/r" ["py"; "pyi"]
           ["/r/old/m.py"; "/r/gone.py"] (Process used_root [])).
  exact used_root_listing.
Defined.

(** X5 over the same root: a change of [/a/m.py] is answered with the
    link [/r/old/m.py]. *)
Lemma changed_file_maps_to_link_witness :
  ∃ self,
    SharedAnalysisDirectory_init plain ["/a"] [] None None (Some "/r")
      None None false false false (Process used_root [])
    = (inr self, Process used_root []) ∧
    get_root self = "/r" ∧
    process_updated_files plain self ["/a/m.py"] = ["/r/old/m.py"].
Proof.
  apply (changed_file_maps_to_link plain ["/a"] [] None None (Some "/r")
           None None false false false (Process used_root [])
           ["/r/old/m.py"; "/r/gone.py"] "/r/old/m.py").
  - exact used_root_listing.
  - in_list.
  - intros other Hother Hreal. elem_cases Hother; [done|].
    vm_compute in Hreal. discriminate.
Defined.

End ReverseIndexWitness.

(** ** What the merge keeps *)

Section MergeInvariants.
Context {W : Type} (os : OS W) (w : W).
Import PyStr PosixPath.

Lemma set_absent (d : dict) (k v : string) :
  PyDict.get d k = None → PyDict.set d k v = d ++ [(k, v)].
Proof.
  induction d as [|[k0 v0] d IH]; simpl; [done|].
  destruct (String.eqb k0 k); [done|]. intros Hget. by rewrite IH.
Qed.

Lemma get_app (d d' : dict) (k : string) :
  PyDict.get (d ++ d') k =
  match PyDict.get d k with Some v => Some v | None => PyDict.get d' k end.
Proof.
  induction d as [|[k0 v0] d IH]; simpl; [done|].
  by destruct (String.eqb k0 k).
Qed.

Lemma get_None_keys (d : dict) (k : string) :
  PyDict.get d k = None ↔ k ∉ d.*1.
Proof.
  induction d as [|[k0 v0] d IH]; simpl.
  - split; [intros _; apply not_elem_of_nil | done].
  - rewrite not_elem_of_cons.
    destruct (String.eqb_spec k0 k) as [->|Hne].
    + split; [done | by intros [? _]].
    + rewrite IH. split; [by split | by intros [_ ?]].
Qed.

Lemma for_fold_invariant {A B} (P : B → Prop) (l : list A) (acc r : B)
    (body : B → A → result B) :
  (∀ acc x acc', x ∈ l → P acc → body acc x = inr acc' → P acc') →
  P acc → for_fold l acc body = inr r → P r.
Proof.
  revert acc. induction l as [|x l IH]; intros acc Hbody Hacc Hrun.
  - by injection Hrun as <-.
  - simpl in Hrun. destruct (body acc x) as [e|acc'] eqn:Hx; [done|].
    apply (IH acc'); [| |done].
    + intros acc0 y acc1 Hy. apply Hbody. by right.
    + eapply Hbody; [by left | done..].
Qed.

(** One iteration leaves the dictionary as it is or adds one entry, for a
    key that was absent, at its end. *)
Lemma body_appends (sd path : string) (d d' : dict) :
  _merge_into_paths_body os w sd d path = inr d' →
  d' = d ∨ ∃ relative absolute,
             PyDict.get d relative = None ∧ d' = d ++ [(relative, absolute)].
Proof.
  unfold _merge_into_paths_body, os_relpath.
  destruct (relpath (getcwd os) path sd) as [relative|]; [|done]. simpl.
  destruct (is_empty_str path); [intros [= <-]; by left|].
  destruct (PyDict.contains d relative) eqn:Hin; [intros [= <-]; by left|].
  apply contains_get in Hin. unfold try_result.
  destruct (path_isfile os w _); simpl; [|intros [= <-]; by left].
  destruct (if endswith relative "__init__.py" then _ else _)
    as [e|[]]; simpl.
  - destruct (is_FileNotFoundError e); [intros [= <-]; by left | done].
  - intros [= <-]. by left.
  - intros [= <-]. right. eexists _, _. split; [done|]. by apply set_absent.
Qed.

Lemma extends_refl (d : dict) : extends d d.
Proof. exists []. by rewrite (right_id_L [] (++)). Qed.

Lemma extends_trans (d1 d2 d3 : dict) :
  extends d1 d2 → extends d2 d3 → extends d1 d3.
Proof.
  intros (a1 & -> & H1) (a2 & -> & H2). exists (a1 ++ a2).
  split; [by rewrite (assoc_L (++)) | auto].
Qed.

Lemma body_extends (sd path : string) (d d' : dict) :
  _merge_into_paths_body os w sd d path = inr d' → extends d d'.
Proof.
  intros [-> | (relative & absolute & Hget & ->)]%body_appends.
  - apply extends_refl.
  - eexists. split; [done|]. intros Hnodup.
    rewrite fmap_app. apply NoDup_app. split; [done|]. split.
    + intros k Hk Hk'. apply list_elem_of_singleton in Hk'. subst.
      by apply get_None_keys in Hget.
    + apply NoDup_singleton.
Qed.

Lemma merge_into_paths_extends (sd : string) (d d' : dict) :
  _merge_into_paths os w sd d = inr d' → extends d d'.
Proof.
  unfold _merge_into_paths.
  destruct (_find_python_paths os w sd) as [e|paths]; [done|]. simpl.
  intros Hrun.
  apply (for_fold_invariant (extends d) paths d d'
           (_merge_into_paths_body os w sd)); [|apply extends_refl|done].
  intros acc path acc' _ Hacc Hbody.
  eapply extends_trans; [done|]. by eapply body_extends.
Qed.

Lemma merge_candidate_fixed (d : dict) (c : string * string) :
  PyDict.contains d c.1 = true ∨ accepted os w c.1 c.2 = false →
  merge_candidate os w d c = d.
Proof.
  unfold merge_candidate. intros [-> | Hacc]; [done|].
  rewrite Hacc. by destruct (PyDict.contains d c.1).
Qed.

Lemma merge_candidates_fixed (cands : list (string * string)) (d : dict) :
  (∀ c, c ∈ cands →
        PyDict.contains d c.1 = true ∨ accepted os w c.1 c.2 = false) →
  fold_left (merge_candidate os w) cands d = d.
Proof.
  induction cands as [|c cands IH]; intros Hfixed; [done|].
  simpl. rewrite merge_candidate_fixed by (apply Hfixed; by left).
  apply IH. intros c' Hc'. apply Hfixed. by right.
Qed.

Lemma merged_candidates_settled (cands : list (string * string)) (d : dict)
    (c : string * string) :
  c ∈ cands →
  PyDict.contains (fold_left (merge_candidate os w) cands d) c.1 = true ∨
  accepted os w c.1 c.2 = false.
Proof.
  intros Hc. destruct (accepted os w c.1 c.2) eqn:Hacc; [left | by right].
  unfold PyDict.contains. rewrite get_merge_candidates.
  destruct (PyDict.get d c.1); [done|].
  unfold first_accepted.
  destruct (List.find _ cands) eqn:Hfind; [done|].
  apply find_None in Hfind. rewrite Forall_forall in Hfind.
  specialize (Hfind c Hc). simpl in Hfind.
  by rewrite String.eqb_refl, Hacc in Hfind.
Qed.

End MergeInvariants.

(** X6.  [_merge_into_paths] never overwrites or removes an entry of the
    dictionary it is given: the result is that dictionary with entries
    added at its end, every key keeps its value, and keys stay
    distinct. *)
Theorem merge_never_overwrites {W} (os : OS W) (w : W)
    (source_directory : string) (all_paths all_paths' : dict) :
  _merge_into_paths os w source_directory all_paths = inr all_paths' →
  (∃ added, all_paths' = all_paths ++ added) ∧
  (∀ relative absolute,
     PyDict.get all_paths relative = Some absolute →
     PyDict.get all_paths' relative = Some absolute) ∧
  (NoDup all_paths.*1 → NoDup all_paths'.*1).
Proof.
  intros (added & -> & Hnodup)%merge_into_paths_extends.
  split; [by exists added|]. split; [|done].
  intros relative absolute Hget. by rewrite get_app, Hget.
Qed.

(** X7.  In the mapping that [_merge] builds no relative path occurs
    twice, no relative path is empty, and every target is a regular
    file. *)
Theorem merged_mapping_invariants {W} (os : OS W) (w : W)
    (self : SharedAnalysisDirectory) (all_paths : dict) :
  _merge_all_paths os w self = inr all_paths →
  NoDup all_paths.*1 ∧
  Forall (λ entry, entry.1 ≠ "" ∧ path_isfile os w entry.2 = true) all_paths.
Proof.
  intros Hrun. split.
  - assert (Hext : extends [] all_paths).
    { unfold _merge_all_paths in Hrun.
      apply (for_fold_invariant (extends [])
               (set_order os (_source_directories self)) [] all_paths
               (λ all_paths sd, _merge_into_paths os w sd all_paths));
        [|apply extends_refl|done].
      intros acc sd acc' _ Hacc Hsd.
      eapply extends_trans; [done|]. by eapply merge_into_paths_extends. }
    destruct Hext as (added & -> & Hnodup). apply Hnodup. constructor.
  - apply merge_all_paths_from_candidates in Hrun.
    unfold from_candidates in Hrun. eapply Forall_impl; [done|].
    intros [relative absolute] (sd & p & _ & [_ Hrel] & _ & Hacc). simpl in *.
    split; [by eapply relpath_not_empty|].
    unfold accepted in Hacc. by apply andb_prop in Hacc as [? _].
Qed.

(** X8.  Once a source directory that can be listed has been merged,
    merging it again changes nothing, neither in the result nor in any
    dictionary that holds the entries of the result. *)
Theorem merge_again_changes_nothing {W} (os : OS W) (w : W)
    (source_directory : string) (all_paths merged later : dict) :
  listable os w source_directory →
  _merge_into_paths os w source_directory all_paths = inr merged →
  (∀ relative absolute,
     PyDict.get merged relative = Some absolute →
     PyDict.get later relative = Some absolute) →
  _merge_into_paths os w source_directory merged = inr merged ∧
  _merge_into_paths os w source_directory later = inr later.
Proof.
  intros Hlist Hrun Hlater.
  rewrite merge_into_paths_listable in Hrun by done.
  injection Hrun as <-.
  assert (Hfixed : ∀ d : dict,
            (∀ relative absolute,
               PyDict.get
                 (fold_left (merge_candidate os w)
                    (candidates os w source_directory) all_paths) relative
               = Some absolute →
               PyDict.get d relative = Some absolute) →
            _merge_into_paths os w source_directory d = inr d).
  { intros d Hd. rewrite merge_into_paths_listable by done. f_equal.
    apply merge_candidates_fixed. intros c Hc.
    destruct (merged_candidates_settled os w _ all_paths c Hc)
      as [Hin | Hacc]; [left | by right].
    unfold PyDict.contains in *.
    destruct (PyDict.get (fold_left _ _ _) c.1) as [absolute|] eqn:Hget;
      [|done].
    by rewrite (Hd _ _ Hget). }
  split; [by apply Hfixed | by apply Hfixed].
Qed.

Section MergeInvariantsWitness.
Import Posix Examples.

(** X6 on [two_trees]: the package marker of [/b] does not replace an
    entry that is already there. *)
Lemma merge_never_overwrites_witness :
  (∃ added,
     [("pkg/__init__.py", "/elsewhere/__init__.py")] =
     [("pkg/__init__.py", "/elsewhere/__init__.py")] ++ added) ∧
  (∀ relative absolute,
     PyDict.get [("pkg/__init__.py", "/elsewhere/__init__.py")] relative
       = Some absolute →
     PyDict.get [("pkg/__init__.py", "/elsewhere/__init__.py")] relative
       = Some absolute) ∧
  (NoDup [("pkg/__init__.py", "/elsewhere/__init__.py")].*1 →
   NoDup [("pkg/__init__.py", "/elsewhere/__init__.py")].*1).
Proof.
  apply (merge_never_overwrites plain two_trees "/b").
  by vm_compute.
Defined.

(** X7 on [two_trees]. *)
Lemma merged_mapping_invariants_witness :
  NoDup [("pkg/mod.py", "/a/pkg/mod.py");
         ("pkg/__init__.py", "/b/pkg/__init__.py")].*1 ∧
  Forall (λ entry, entry.1 ≠ "" ∧ path_isfile plain two_trees entry.2 = true)
    [("pkg/mod.py", "/a/pkg/mod.py");
     ("pkg/__init__.py", "/b/pkg/__init__.py")].
Proof.
  apply (merged_mapping_invariants plain two_trees
           (shared ["/a"; "/b"] [] [] "/r")).
  exact two_trees_merged.
Defined.

Lemma two_trees_listable_b : listable plain two_trees "/b".
Proof.
  eexists. split; [apply two_trees_listing_b|]. split; [not_in_list|].
  apply Forall_forall. intros path _. apply posix_stat_or_absent.
Qed.

(** X8 on [two_trees]: [/b] merged a second time. *)
Lemma merge_again_changes_nothing_witness :
  _merge_into_paths plain two_trees "/b"
    [("pkg/__init__.py", "/b/pkg/__init__.py")]
  = inr [("pkg/__init__.py", "/b/pkg/__init__.py")] ∧
  _merge_into_paths plain two_trees "/b"
    [("pkg/mod.py", "/a/pkg/mod.py");
     ("pkg/__init__.py", "/b/pkg/__init__.py")]
  = inr [("pkg/mod.py", "/a/pkg/mod.py");
         ("pkg/__init__.py", "/b/pkg/__init__.py")].
Proof.
  apply (merge_again_changes_nothing plain two_trees "/b" []).
  - exact two_trees_listable_b.
  - by vm_compute.
  - intros relative absolute Hget. cbn [PyDict.get] in Hget.
    destruct (String.eqb_spec "pkg/__init__.py" relative) as [<-|]; [|done].
    injection Hget as <-. by vm_compute.
Defined.

End MergeInvariantsWitness.

(** ** What the File Lister returns *)

Section ListingFacts.
Import PyStr PosixPath.

Lemma extension_filter_tests (extensions acc : list string) :
  fold_left
    (λ extension_filter extension,
       (if (0 <? length extension_filter)%nat
        then extension_filter ++ ["-or"] else extension_filter)
       ++ ["-name"; "*." +:+ extension])
    extensions acc =
  acc ++
  match acc, extensions with
  | _, [] => []
  | [], _ => name_tests extensions
  | _, _ => "-or" :: name_tests extensions
  end.
Proof.
  revert acc. induction extensions as [|e extensions IH]; intros acc.
  - by destruct acc; rewrite (right_id_L [] (++)).
  - cbn [fold_left]. rewrite IH.
    destruct acc as [|a acc].
    + simpl. by destruct extensions.
    + change (0 <? length (a :: acc))%nat with true. cbv iota.
      rewrite <- !(assoc_L (++)).
      destruct extensions as [|e' extensions]; [done|].
      by destruct ((a :: acc) ++ ["-or"] ++ ["-name"; "*." +:+ e]) eqn:Happ.
Qed.

Lemma find_paths_command {W} (os : OS W) (w : W) (root : string)
    (extensions : list string) :
  find_paths_with_extensions os w root extensions =
  (output ← check_output os w (find_command os root extensions);
   mret (split "010"%char (strip output))).
Proof.
  unfold find_paths_with_extensions, find_command.
  rewrite extension_filter_tests. by destruct extensions.
Qed.

Lemma split_line (c : ascii) (line : string) :
  has_char c line = false → split c line = [line].
Proof.
  induction line as [|a line IH]; [done|]. simpl.
  intros [Ha Hline]%orb_false_elim. by rewrite Ha, IH.
Qed.

Lemma split_app (c : ascii) (line rest : string) :
  has_char c line = false →
  split c (line +:+ String c rest) = line :: split c rest.
Proof.
  induction line as [|a line IH].
  - intros _. rewrite str_app_nil_l. simpl. by rewrite Ascii.eqb_refl.
  - simpl. intros [Ha Hline]%orb_false_elim. by rewrite Ha, IH.
Qed.

Lemma split_join (c : ascii) (lines : list string) :
  lines ≠ [] → Forall (λ line, has_char c line = false) lines →
  split c (join_with (String c "") lines) = lines.
Proof.
  intros Hne Hlines. induction Hlines as [|line lines Hline Hlines IH]; [done|].
  destruct lines as [|line' lines].
  - by apply split_line.
  - change (join_with (String c "") (line :: line' :: lines))
      with (line +:+ String c "" +:+ join_with (String c "") (line' :: lines)).
    rewrite str_app_cons, str_app_nil_l, split_app by done.
    by rewrite IH.
Qed.

Lemma rstrip_space (s : string) (c : ascii) :
  is_space c = true → rstrip (s +:+ String c "") = rstrip s.
Proof.
  intros Hc. induction s as [|a s IH].
  - rewrite str_app_nil_l. simpl. by rewrite Hc.
  - rewrite str_app_cons. simpl. by rewrite IH.
Qed.

Lemma lstrip_app (t u : string) :
  lstrip (t +:+ u) =
  if is_empty_str (lstrip t) then lstrip u else lstrip t +:+ u.
Proof.
  induction t as [|a t IH].
  - rewrite str_app_nil_l. simpl. by destruct (lstrip u).
  - rewrite str_app_cons. simpl. destruct (is_space a); [done|].
    by rewrite str_app_cons.
Qed.

Lemma strip_newline (t : string) :
  strip (t +:+ String "010"%char "") = strip t.
Proof.
  unfold strip. rewrite lstrip_app.
  destruct (lstrip t) as [|a t'] eqn:Ht; [done|].
  simpl is_empty_str. cbv iota. by rewrite rstrip_space.
Qed.

End ListingFacts.

(** X10.  [find_paths_with_extensions] runs [find] on the absolute root
    with one [-name] test per extension, joined by [-or], and returns the
    printed paths, one per line: when [find] prints at least one path,
    no path holds a line break and the text neither begins nor ends with
    white space, the result is the list of the printed paths, in their
    order. *)
Theorem find_paths_parses_output {W} (os : OS W) (w : W) (root : string)
    (extensions paths : list string) :
  paths ≠ [] →
  Forall (λ path, has_char "010"%char path = false) paths →
  PyStr.strip (PyStr.join_with (String "010"%char "") paths)
    = PyStr.join_with (String "010"%char "") paths →
  check_output os w (find_command os root extensions) =
    inr (PyStr.join_with (String "010"%char "") paths
         +:+ String "010"%char "") →
  find_paths_with_extensions os w root extensions = inr paths.
Proof.
  intros Hne Hlines Htrim Hout.
  rewrite find_paths_command, Hout. simpl.
  by rewrite strip_newline, Htrim, split_join.
Qed.

Section ListingFactsWitness.
Import Posix Examples.

(** X10 for the directory [/a] of [two_trees]. *)
Lemma find_paths_parses_output_witness :
  find_paths_with_extensions plain two_trees "/a" ["py"; "pyi"] =
  inr ["/a/pkg/__init__.py"; "/a/pkg/mod.py"].
Proof.
  apply find_paths_parses_output.
  - discriminate.
  - repeat constructor.
  - by vm_compute.
  - by vm_compute.
Defined.

End ListingFactsWitness.

(** X9.  When the [find] that [find_paths_with_extensions] runs prints
    nothing but white space for a source directory, because the
    directory holds no source file, the listing is the list of the empty
    path and [_merge] raises [ValueError] as soon as it reaches the
    directory, before it creates any link. *)
Theorem merge_raises_without_sources {W} (os : OS W)
    (self : SharedAnalysisDirectory) (earlier later : list string)
    (sd output : string) (s : process W) :
  set_order os (_source_directories self) = earlier ++ sd :: later →
  Forall (listable os (world s)) earlier →
  check_output os (world s) (find_command os sd ["py"; "pyi"])
    = inr output →
  PyStr.strip output = "" →
  find_paths_with_extensions os (world s) sd ["py"; "pyi"] = inr [""] ∧
  _merge os self s = (inl (ValueError "no path specified"), s).
Proof.
  intros Horder Hearlier Hfind Hblank.
  assert (Hlisting :
    find_paths_with_extensions os (world s) sd ["py"; "pyi"] = inr [""]).
  { rewrite find_paths_command, Hfind. simpl. by rewrite Hblank. }
  split; [done|].
  unfold _merge, query, mbind, M_bind. simpl.
  unfold _merge_all_paths.
  rewrite Horder, for_fold_app, merge_directories by done.
  simpl. by rewrite merge_into_paths_nothing_found.
Qed.

Section EmptyListingWitness.
Import Posix Examples.

(** X9 for the source directory [/docs], which holds a file, but none
    with one of the extensions. *)
Lemma merge_raises_without_sources_witness :
  find_paths_with_extensions plain docs_only "/docs" ["py"; "pyi"]
    = inr [""] ∧
  _merge plain (shared ["/docs"] [] [] "/r") (Process docs_only []) =
  (inl (ValueError "no path specified"), Process docs_only []).
Proof.
  apply (merge_raises_without_sources plain (shared ["/docs"] [] [] "/r")
           [] [] "/docs" "" (Process docs_only [])).
  - by vm_compute.
  - constructor.
  - by vm_compute.
  - reflexivity.
Defined.

End EmptyListingWitness.

(** ** Equal specifications and their hashes *)

Section HashContract.
Import GeneratorSpecifications.
Context (hash_None : Z) (hash_str : string → Z) (hash_tuple : list Z → Z).

Local Abbreviation hash := (py_hash hash_None hash_str hash_tuple).

Lemma hash_pair (u v : value) :
  hash (VTuple [u; v]) =
  match hash u, hash v with
  | inl e, _ => inl e
  | inr _, inl e => inl e
  | inr h1, inr h2 => inr (hash_tuple [h1; h2])
  end.
Proof. simpl. by destruct (hash u), (hash v). Qed.

Lemma hash_and_sorted (x : option pyset) :
  hash (and_sorted x) =
  match x with
  | None => inr hash_None
  | Some [] => inl (TypeError "unhashable type: 'set'")
  | Some s => inr (hash_tuple (hash_str <$> sorted s))
  end.
Proof.
  destruct x as [[|x0 s]|]; [done| |done].
  unfold and_sorted. apply hash_strings.
Qed.

Lemma whitelist_hash_equal (a b : WhitelistSpecification) :
  proper a → proper b → WhitelistSpecification_eqb a b = true →
  WhitelistSpecification_hash hash_None hash_str hash_tuple a =
  WhitelistSpecification_hash hash_None hash_str hash_tuple b.
Proof.
  intros Ha Hb [Htype Hname]%andb_prop. unfold WhitelistSpecification_hash.
  cbv zeta.
  rewrite (and_sorted_canonical (parameter_type a) (parameter_type b)),
    (and_sorted_canonical (parameter_name a) (parameter_name b));
    [done | | | done | | | done];
    intros s Hs; first [by apply Ha; auto | by apply Hb; auto].
Qed.

Lemma whitelist_hash_defined (a : WhitelistSpecification) :
  (∃ h, WhitelistSpecification_hash hash_None hash_str hash_tuple a = inr h)
  ↔ has_empty_set a = false.
Proof.
  unfold WhitelistSpecification_hash, has_empty_set.
  cbv zeta. rewrite hash_pair, !hash_and_sorted.
  destruct (parameter_type a) as [[|x s]|], (parameter_name a) as [[|y t]|];
    split; try done; try (by intros [h [=]]); by eexists.
Qed.

Lemma option_str_eqb_eq (a b : option string) :
  option_str_eqb a b = true → a = b.
Proof.
  destruct a as [a|], b as [b|]; try done. by intros ->%String.eqb_eq.
Qed.

Lemma AnnotationSpecification_eqb_eq (a b : AnnotationSpecification) :
  AnnotationSpecification_eqb a b = true → a = b.
Proof.
  destruct a, b. unfold AnnotationSpecification_eqb. cbn [arg vararg kwarg returns].
  intros [[[->%option_str_eqb_eq ->%option_str_eqb_eq]%andb_prop
             ->%option_str_eqb_eq]%andb_prop ->%option_str_eqb_eq]%andb_prop.
  done.
Qed.

Lemma annotation_hash_defined (a : AnnotationSpecification) :
  ∃ h, AnnotationSpecification_hash hash_None hash_str hash_tuple a = inr h.
Proof.
  destruct a as [[?|] [?|] [?|] [?|]]; by eexists.
Qed.

End HashContract.

(** X11.  [WhitelistSpecification.__hash__] agrees with the equality of
    the tuple: two specifications with equal fields hash alike (to the
    same number, or both raise), in whatever order their sets are
    iterated; and the hash is a number exactly when no field is the empty
    set. *)
Theorem whitelist_hash_respects_equality
    (hash_None : Z) (hash_str : string → Z) (hash_tuple : list Z → Z)
    (a b : GeneratorSpecifications.WhitelistSpecification) :
  GeneratorSpecifications.proper a → GeneratorSpecifications.proper b →
  GeneratorSpecifications.WhitelistSpecification_eqb a b = true →
  GeneratorSpecifications.WhitelistSpecification_hash
    hash_None hash_str hash_tuple a =
  GeneratorSpecifications.WhitelistSpecification_hash
    hash_None hash_str hash_tuple b ∧
  ((∃ h, GeneratorSpecifications.WhitelistSpecification_hash
           hash_None hash_str hash_tuple a = inr h)
   ↔ GeneratorSpecifications.has_empty_set a = false).
Proof.
  intros Ha Hb Heq. split.
  - by apply whitelist_hash_equal.
  - apply whitelist_hash_defined.
Qed.

(** X12.  [DecoratorAnnotationSpecification.__hash__] agrees with the
    equality of the tuple as well: equal specifications hash alike, and
    the hash is a number exactly when the whitelist, if there is one, has
    no field that is the empty set. *)
Theorem decorator_hash_respects_equality
    (hash_None : Z) (hash_str : string → Z) (hash_tuple : list Z → Z)
    (a b : GeneratorSpecifications.DecoratorAnnotationSpecification) :
  (∀ w, GeneratorSpecifications.whitelist a = Some w ∨
        GeneratorSpecifications.whitelist b = Some w →
        GeneratorSpecifications.proper w) →
  GeneratorSpecifications.DecoratorAnnotationSpecification_eqb a b = true →
  GeneratorSpecifications.DecoratorAnnotationSpecification_hash
    hash_None hash_str hash_tuple a =
  GeneratorSpecifications.DecoratorAnnotationSpecification_hash
    hash_None hash_str hash_tuple b ∧
  ((∃ h, GeneratorSpecifications.DecoratorAnnotationSpecification_hash
           hash_None hash_str hash_tuple a = inr h)
   ↔ ∀ w, GeneratorSpecifications.whitelist a = Some w →
          GeneratorSpecifications.has_empty_set w = false).
Proof.
  intros Hproper [[Hdec%String.eqb_eq Hann]%andb_prop Hwl]%andb_prop.
  unfold GeneratorSpecifications.DecoratorAnnotationSpecification_hash.
  rewrite <- Hdec. split.
  - assert (Ha : GeneratorSpecifications.annotations a
                 = GeneratorSpecifications.annotations b).
    { destruct (GeneratorSpecifications.annotations a) as [x|],
        (GeneratorSpecifications.annotations b) as [y|]; try done.
      by rewrite (AnnotationSpecification_eqb_eq x y). }
    rewrite <- Ha.
    destruct (GeneratorSpecifications.whitelist a) as [x|],
      (GeneratorSpecifications.whitelist b) as [y|]; try done.
    by rewrite (whitelist_hash_equal hash_None hash_str hash_tuple x y)
      by auto.
  - cbn [GeneratorSpecifications.py_hash mbind]. 
    assert (Hann' : ∃ h,
      match GeneratorSpecifications.annotations a with
      | Some x => GeneratorSpecifications.AnnotationSpecification_hash
                    hash_None hash_str hash_tuple x
      | None => inr hash_None
      end = inr h).
    { destruct (GeneratorSpecifications.annotations a) as [x|];
        [apply annotation_hash_defined | by eexists]. }
    destruct Hann' as [ha ->].
    destruct (GeneratorSpecifications.whitelist a) as [x|].
    + pose proof (whitelist_hash_defined hash_None hash_str hash_tuple x)
        as Hx.
      split.
      * intros [h Hh] w [= <-]. apply Hx.
        destruct (GeneratorSpecifications.WhitelistSpecification_hash
                    hash_None hash_str hash_tuple x) as [e|hw];
          [done | by eexists].
      * intros Hw. destruct (proj2 Hx (Hw x eq_refl)) as [hw ->].
        by eexists.
    + split; [done | intros _; by eexists].
Qed.

Section HashContractWitness.
Import GeneratorSpecifications.

(** X11 for one set built in two orders. *)
Lemma whitelist_hash_respects_equality_witness :
  let a := {| parameter_type := Some ["request"; "HttpRequest"];
              parameter_name := None |} in
  let b := {| parameter_type := Some ["HttpRequest"; "request"];
              parameter_name := None |} in
  WhitelistSpecification_hash 0%Z (λ s, Z.of_nat (String.length s))
    (foldr Z.add 1%Z) a =
  WhitelistSpecification_hash 0%Z (λ s, Z.of_nat (String.length s))
    (foldr Z.add 1%Z) b ∧
  ((∃ h, WhitelistSpecification_hash 0%Z (λ s, Z.of_nat (String.length s))
           (foldr Z.add 1%Z) a = inr h)
   ↔ has_empty_set a = false).
Proof.
  apply whitelist_hash_respects_equality.
  - intros s [[= <-]|[=]]. by apply (bool_decide_unpack _).
  - intros s [[= <-]|[=]]. by apply (bool_decide_unpack _).
  - by vm_compute.
Defined.

(** X12 for two specifications of one decorator. *)
Lemma decorator_hash_respects_equality_witness :
  let a := {| decorator := "@app.route";
              annotations := Some default_entrypoint_taint;
              whitelist := Some {| parameter_type := Some ["b"; "a"];
                                   parameter_name := None |} |} in
  let b := {| decorator := "@app.route";
              annotations := Some default_entrypoint_taint;
              whitelist := Some {| parameter_type := Some ["a"; "b"];
                                   parameter_name := None |} |} in
  DecoratorAnnotationSpecification_hash 0%Z
    (λ s, Z.of_nat (String.length s)) (foldr Z.add 1%Z) a =
  DecoratorAnnotationSpecification_hash 0%Z
    (λ s, Z.of_nat (String.length s)) (foldr Z.add 1%Z) b ∧
  ((∃ h, DecoratorAnnotationSpecification_hash 0%Z
           (λ s, Z.of_nat (String.length s)) (foldr Z.add 1%Z) a = inr h)
   ↔ ∀ w, whitelist a = Some w → has_empty_set w = false).
Proof.
  apply decorator_hash_respects_equality.
  - intros w [[= <-]|[= <-]] s [[= <-]|[=]];
      by apply (bool_decide_unpack _).
  - by vm_compute.
Defined.

End HashContractWitness.

(** ** What [prepare] leaves as it was *)

Section PrepareFacts.
Context {W : Type} (os : OS W).

(** The resolution step changes nothing of the object but the set of its
    source directories, to which it adds. *)
Lemma resolve_source_directories_shape (self self' : SharedAnalysisDirectory)
    (s s' : process W) :
  _resolve_source_directories os self s = (inr self', s') →
  (_targets self = ∅ ∧ self' = self) ∨
  ∃ new, self' = update_source_directories self new.
Proof.
  unfold _resolve_source_directories.
  unfold mbind at 1. unfold M_bind at 1.
  destruct (decide (_targets self = ∅)) as [Htargets|Htargets].
  - unfold mret at 1. unfold M_ret at 1.
    destruct (size (_source_directories self) =? 0)%nat; [done|].
    intros [= <- <-]. by left.
  - unfold mbind at 1. unfold M_bind at 1. unfold command at 1.
    destruct (generate_source_directories os _ _ _ _) as [[e|new] w'];
      [done|].
    unfold mbind at 1. unfold M_bind at 1.
    destruct (_original_directory self) as [original_directory|].
    + unfold query at 1.
      destruct (translate_paths os _ new original_directory)
        as [e|translated]; [done|].
      unfold mret at 1. unfold M_ret at 1.
      destruct (size _ =? 0)%nat; [done|].
      intros [= <- <-]. right. by eexists.
    + unfold mret at 1. unfold M_ret at 1. unfold mret at 1. unfold M_ret at 1.
      destruct (size _ =? 0)%nat; [done|].
      intros [= <- <-]. right. by eexists.
Qed.

Lemma prepare_resolves (self self' : SharedAnalysisDirectory)
    (s : process W) :
  (prepare os self s).1 = inr self' →
  ∃ s0 s1, _resolve_source_directories os self s0 = (inr self', s1).
Proof.
  unfold prepare.
  unfold mbind at 1. unfold M_bind at 1. unfold LOG at 1.
  unfold mbind at 1. unfold M_bind at 1.
  destruct (_resolve_source_directories os self _) as [[e|self1] s1] eqn:Hres;
    [done|].
  unfold mbind at 1. unfold M_bind at 1.
  destruct (try_except (command (makedirs os (get_root self))) _ _ s1)
    as [[e|[]] s2]; [done|].
  unfold mbind at 1. unfold M_bind at 1.
  destruct (acquire_lock os _ true _ s2) as [[e|[]] s3]; [done|].
  intros [= <-]. by eauto.
Qed.

End PrepareFacts.

(** X13.  A [prepare] that succeeds rebuilds the links but leaves the
    object's reverse index and its root as they were made by [__init__],
    and only adds to the source directories: [process_updated_files]
    answers after [prepare] exactly as it did before, and without targets
    the object is unchanged. *)
Theorem prepare_keeps_index {W} (os : OS W)
    (self self' : SharedAnalysisDirectory) (s : process W) :
  (prepare os self s).1 = inr self' →
  get_root self' = get_root self ∧
  _symbolic_links self' = _symbolic_links self ∧
  _source_directories self ⊆ _source_directories self' ∧
  (_targets self = ∅ → self' = self) ∧
  ∀ paths,
    process_updated_files os self' paths =
    process_updated_files os self paths.
Proof.
  intros (s0 & s1 & Hres)%prepare_resolves.
  pose proof Hres as Hshape.
  apply resolve_source_directories_shape in Hshape
    as [[_ ->]|[new ->]]; [done|].
  do 2 (split; [done|]). split; [|split; [|done]].
  - apply union_subseteq_l.
  - intros Htargets. revert Hres. unfold _resolve_source_directories.
    rewrite decide_True by done.
    unfold mbind, M_bind, mret, M_ret.
    destruct (size (_source_directories self) =? 0)%nat; [done|].
    by intros [= <- _].
Qed.

Section PrepareFactsWitness.
Import Posix Examples.

(** X13 for a run whose target resolves to the directory [/b]: the
    object gains the source directory, the links are made, and the index
    of the object is as empty as before. *)
Lemma prepare_keeps_index_witness :
  let self := shared ["/a"] ["//project:target"] [] "/r" in
  let self' := update_source_directories self {["/b"]} in
  get_root self' = get_root self ∧
  _symbolic_links self' = _symbolic_links self ∧
  _source_directories self ⊆ _source_directories self' ∧
  (_targets self = ∅ → self' = self) ∧
  ∀ paths,
    process_updated_files (posix "/" {["/b"]} ∅) self' paths =
    process_updated_files (posix "/" {["/b"]} ∅) self paths.
Proof.
  apply (prepare_keeps_index (posix "/" {["/b"]} ∅)
           (shared ["/a"] ["//project:target"] [] "/r")
           (update_source_directories
              (shared ["/a"] ["//project:target"] [] "/r") {["/b"]})
           (Process two_trees [])).
  by vm_compute.
Defined.

End PrepareFactsWitness.

(** ** Paths below a tracked directory *)

Section TrackedFacts.
Import PyStr PosixPath.

Lemma normpath_not_empty (path : string) : is_empty_str (normpath path) = false.
Proof.
  unfold normpath. destruct (is_empty_str path); [done|]. cbv zeta.
  match goal with |- context [if is_empty_str ?p then "." else ?p] =>
    by destruct (is_empty_str p) eqn:Hp end.
Qed.

Lemma rstrip_char_tail (directory : string) :
  endswith directory sep = true →
  ∃ rest, directory = rstrip_char sep_char directory +:+ sep +:+ rest.
Proof.
  induction directory as [|a directory IH]; [done|].
  rewrite endswith_cons. intros Hends. cbn [rstrip_char].
  destruct (endswith directory sep) eqn:Htail.
  - destruct (IH eq_refl) as [rest Hrest].
    destruct (is_empty_str (rstrip_char sep_char directory)
              && Ascii.eqb a sep_char) eqn:Hstrip.
    + apply andb_prop in Hstrip as [_ ->%Ascii.eqb_eq]. by exists directory.
    + exists rest. by rewrite str_app_cons, <- Hrest.
  - rewrite orb_false_r in Hends. apply String.eqb_eq in Hends.
    injection Hends as -> ->. by exists "".
Qed.

Lemma join_below (directory name : string) :
  is_empty_str directory = false → isabs name = false →
  startswith (join directory name)
    (rstrip_char sep_char directory +:+ sep) = true.
Proof.
  intros Hdir Hname. unfold join, isabs in *. rewrite Hname, Hdir.
  cbn [orb]. apply startswith_iff.
  destruct (endswith directory sep) eqn:Hends.
  - destruct (rstrip_char_tail directory Hends) as [rest Hrest].
    exists (rest +:+ name). rewrite Hrest at 1.
    by rewrite !str_app_assoc.
  - exists name. by rewrite (rstrip_char_id directory Hends), str_app_assoc.
Qed.

Lemma tracked_directory_not_empty {W} (os : OS W) (root : string)
    (search_path : list string) (directory : string) :
  directory ∈ tracked_directories_of os root search_path →
  is_empty_str directory = false.
Proof.
  unfold tracked_directories_of. cbv zeta.
  intros Hin%list_elem_of_In. apply in_map_iff in Hin as (path & <- & _).
  unfold abspath. destruct (isabs path); apply normpath_not_empty.
Qed.

End TrackedFacts.

(** X14.  Every path made by [os.path.join] from a tracked directory of
    an [AnalysisDirectory] (its root or a search path entry, made
    absolute) and a relative name is tracked, also when the directory is
    the file system's root: [process_updated_files] keeps each such path
    it is given. *)
Theorem below_tracked_directory_is_tracked {W} (os : OS W)
    (self : AnalysisDirectory) (directory name : string) :
  directory ∈ AnalysisDirectory_tracked_directories os self →
  PosixPath.isabs name = false →
  AnalysisDirectory_is_tracked os self (PosixPath.join directory name) = true ∧
  ∀ paths,
    PosixPath.join directory name ∈ paths →
    PosixPath.join directory name ∈
      AnalysisDirectory_process_updated_files os self paths.
Proof.
  intros Hdir Hname.
  assert (Htracked : AnalysisDirectory_is_tracked os self
                       (PosixPath.join directory name) = true).
  { unfold AnalysisDirectory_is_tracked, is_tracked_in.
    apply existsb_exists. exists directory. split.
    - by apply list_elem_of_In.
    - apply join_below; [|done].
      by apply (tracked_directory_not_empty os _ _ _ Hdir). }
  split; [done|]. intros paths Hin.
  unfold AnalysisDirectory_process_updated_files.
  apply list_elem_of_In, filter_In. split; [by apply list_elem_of_In|done].
Qed.

Section TrackedFactsWitness.
Import Posix Examples.

(** X14 for a search path entry, and for a root that is [/]. *)
Lemma below_tracked_directory_is_tracked_witness :
  let self := {| base_path := "/"; base_filter_paths := [];
                 base_search_path := ["lib$site"] |} in
  (AnalysisDirectory_is_tracked in_foo self "/foo/lib/site/x.py" = true ∧
   ∀ paths,
     "/foo/lib/site/x.py" ∈ paths →
     "/foo/lib/site/x.py" ∈
       AnalysisDirectory_process_updated_files in_foo self paths) ∧
  AnalysisDirectory_is_tracked in_foo self "/etc" = true.
Proof.
  split.
  - apply (below_tracked_directory_is_tracked in_foo
             {| base_path := "/"; base_filter_paths := [];
                base_search_path := ["lib$site"] |}
             "/foo/lib/site" "x.py").
    + vm_compute. in_list.
    + reflexivity.
  - apply (below_tracked_directory_is_tracked in_foo
             {| base_path := "/"; base_filter_paths := [];
                base_search_path := ["lib$site"] |} "/" "etc").
    + vm_compute. in_list.
    + reflexivity.
Defined.

End TrackedFactsWitness.

(** ** What the listers return *)

Section ListerFacts.

(** A text without white space in it, and not the empty one. *)
Local Abbreviation whole :=
  (λ entry : ustr, entry ≠ [] ∧ has_whitespace entry = false).

Lemma split_whitespace_whole (s : ustr) : Forall whole (split_whitespace s).
Proof.
  induction s as [|a s IH]; [by constructor|].
  cbn [split_whitespace]. destruct (is_whitespace a) eqn:Ha; [done|].
  assert (Hone : whole [a]).
  { split; [done|]. unfold has_whitespace. simpl. by rewrite Ha. }
  destruct s as [|b s]; [by constructor|].
  destruct (is_whitespace b) eqn:Hb; [by constructor|].
  destruct (split_whitespace (b :: s)) as [|word words]; [by constructor|].
  inversion IH as [|? ? [_ Hword] Hwords]; subst.
  constructor; [|done]. split; [done|].
  unfold has_whitespace in *. simpl. by rewrite Ha.
Qed.

Lemma split_whitespace_word (word rest : ustr) (c : N) :
  whole word → is_whitespace c = true →
  split_whitespace (word ++ c :: rest) = word :: split_whitespace rest.
Proof.
  intros [Hne Hspace] Hc. induction word as [|a word IH]; [done|]. clear Hne.
  unfold has_whitespace in Hspace. simpl in Hspace.
  apply orb_false_elim in Hspace as [Ha Hword].
  rewrite <- app_comm_cons. cbn [split_whitespace]. rewrite Ha.
  destruct word as [|b word].
  - simpl. by rewrite Hc.
  - rewrite <- app_comm_cons. rewrite <- app_comm_cons in IH.
    pose proof Hword as Hb. simpl in Hb. apply orb_false_elim in Hb as [Hb _].
    rewrite Hb. by rewrite IH.
Qed.

Lemma split_whitespace_unlines (paths : list ustr) :
  Forall whole paths → split_whitespace (unlines paths) = paths.
Proof.
  induction 1 as [|path paths Hpath Hpaths IH]; [done|].
  cbn [unlines fold_right]. rewrite split_whitespace_word by done.
  by rewrite <- IH at 2.
Qed.

End ListerFacts.

(** X15.  Whatever a lister returns, [Filesystem.list] through [find] or
    [MercurialBackedFilesystem.list] through [hg files], no entry is
    empty and no entry holds white space, ASCII or not: a file whose name
    holds a blank is never returned under its name. *)
Theorem listers_return_whole_words {W}
    (run_stdout : W → list ustr → result ustr)
    (filesystem : Filesystem_class) (w : W) (root pattern : ustr)
    (entries : list ustr) :
  list_of run_stdout filesystem w root pattern = inr entries →
  Forall (λ entry, entry ≠ [] ∧ has_whitespace entry = false) entries.
Proof.
  destruct filesystem; simpl;
    unfold Filesystem_list, MercurialBackedFilesystem_list, try_result;
    destruct (run_stdout w _) as [e|output]; simpl; try done.
  - intros [= <-]. apply split_whitespace_whole.
  - by destruct (is_FileNotFoundError e).
  - intros [= <-]. apply split_whitespace_whole.
Qed.

(** X16.  When the process prints paths that are not empty and hold no
    white space, ASCII or not, one on a line, each lister returns these
    paths in their order; [MercurialBackedFilesystem.list] does so for
    every [root], which it does not pass on. *)
Theorem listers_return_printed_paths {W}
    (run_stdout : W → list ustr → result ustr)
    (w : W) (root pattern : ustr) (paths : list ustr) :
  Forall (λ path, path ≠ [] ∧ has_whitespace path = false) paths →
  (run_stdout w
     [code_points "find"; root; code_points "-name";
      code_points "*" ++ pattern]
     = inr (unlines paths) →
   Filesystem_list run_stdout w root pattern = inr paths) ∧
  (run_stdout w
     [code_points "hg"; code_points "files"; code_points "--include";
      code_points "**" ++ pattern]
     = inr (unlines paths) →
   ∀ root', MercurialBackedFilesystem_list run_stdout w root' pattern
            = inr paths).
Proof.
  intros Hpaths. split.
  - intros Hrun. unfold Filesystem_list. rewrite Hrun. simpl.
    by rewrite split_whitespace_unlines.
  - intros Hrun root'. unfold MercurialBackedFilesystem_list.
    rewrite Hrun. simpl. by rewrite split_whitespace_unlines.
Qed.

Section ListerFactsWitness.

(** X15 for a [find] that prints one name, with a no-break space in
    it. *)
Lemma listers_return_whole_words_witness :
  Forall (λ entry, entry ≠ [] ∧ has_whitespace entry = false)
    [code_points "/u/a"; code_points "b.py"].
Proof.
  apply (listers_return_whole_words
           (λ (_ : unit) _,
              inr (unlines [code_points "/u/a" ++ 160%N :: code_points "b.py"]))
           Filesystem tt (code_points "/u") (code_points ".py")).
  by vm_compute.
Defined.

(** X16 for a process that prints two paths. *)
Lemma listers_return_printed_paths_witness :
  let paths := [code_points "/src/a.py"; code_points "/src/b.py"] in
  Filesystem_list (λ (_ : unit) _, inr (unlines paths))
    tt (code_points "/src") (code_points ".py") = inr paths ∧
  ∀ root',
    MercurialBackedFilesystem_list (λ (_ : unit) _, inr (unlines paths))
      tt root' (code_points ".py") = inr paths.
Proof.
  destruct (listers_return_printed_paths
              (λ (_ : unit) _,
                 inr (unlines [code_points "/src/a.py";
                               code_points "/src/b.py"]))
              tt (code_points "/src") (code_points ".py")
              [code_points "/src/a.py"; code_points "/src/b.py"])
    as [Hfind Hhg].
  - repeat constructor; done.
  - split; [by apply Hfind | by apply Hhg].
Defined.

End ListerFactsWitness.
